(** * util/pull: lazy pull of an image's manifests

    A shallow embedding of [util/pull/pull.go]: the [Puller] with its
    once-only reference resolution, the local fast path, the handler that
    keeps layer blobs out of the fetch stage, the walk that gathers the
    non-layer descriptors, and the reconciliation of the manifest's layers
    with the diff IDs of the image config.

    The content store, the registry resolver and the containerd helpers are
    collaborators of the package.  They are kept abstract: every call to one
    of them goes through an oracle over an opaque external state, and is
    written to a trace that the oracles themselves cannot touch. *)

From Stdlib Require Import ZArith String List Lia.
From stdpp Require Import base option list gmap strings.

Local Open Scope string_scope.
Local Open Scope list_scope.

(** ** Data model *)

Module digest.
(** [digest.Digest] is a Go string type; [String()] is the identity. *)
Definition Digest := string.
Definition String (d : Digest) : string := d.
End digest.

Module ocispec.
(** [ocispec.Platform], pointed to by a descriptor. *)
Record Platform := mkPlatform {
  Architecture : string;
  OS : string;
  Variant : string
}.

(** [ocispec.Descriptor].  A nil annotation map is [None]; the field
    [Platform] of the Go struct is [DescPlatform] here, the name being
    taken by the type. *)
Record Descriptor := mkDescriptor {
  MediaType : string;
  Digest : digest.Digest;
  Size : Z;
  URLs : list string;
  Annotations : option (gmap string string);
  DescPlatform : option Platform
}.

(** The zero value [ocispec.Descriptor{}]. *)
Definition zero : Descriptor := mkDescriptor "" "" 0 [] None None.

(** [ocispec.Manifest], as far as the package reads it. *)
Record Manifest := mkManifest {
  Config : Descriptor;
  Layers : list Descriptor
}.
End ocispec.

Module reference.
(** [reference.Spec] is declared by containerd; the package only calls
    its methods [String()] and [Digest()], whose values are kept. *)
Record Spec := mkSpec {
  String : string;
  Digest : digest.Digest
}.
End reference.

(** Arguments of a formatted error message. *)
Inductive fmt_arg :=
| ArgDigests (ds : list digest.Digest)
| ArgDescriptors (ds : list ocispec.Descriptor).

(** Go [error] values: those the package builds itself, the skip signal of
    [images], and whatever a collaborator reports. *)
Inductive error :=
| errors_New (msg : string)
| errors_Errorf (format : string) (args : list fmt_arg)
| errors_WithStack (e : error)
| errors_Wrap (e : error) (msg : string)
| images_ErrSkipDesc
| external_error (msg : string).

(** A Go result pair [(value, err)] whose value is dropped when [err] is
    not nil. *)
Inductive result (A : Type) :=
| Ok (a : A)
| Err (e : error).
Arguments Ok {A} a.
Arguments Err {A} e.

Module Puller.
(** The struct [Puller].  [ContentStore] and [Resolver] are handles on
    the collaborators and live in the environment; [resolveOnce] is the
    done flag of the [sync.Once]. *)
Record t := mk {
  Src : reference.Spec;
  Platform : ocispec.Platform;
  resolveOnce : bool;
  resolveErr : option error;
  desc : ocispec.Descriptor;
  configDesc : ocispec.Descriptor;
  ref : string;
  layers : list ocispec.Descriptor;
  nonlayers : list ocispec.Descriptor
}.

(** [&Puller{ContentStore: .., Resolver: .., Src: src, Platform: pl}]:
    what a caller outside the package can build. *)
Definition new (src : reference.Spec) (pl : ocispec.Platform) : t :=
  mk src pl false None ocispec.zero ocispec.zero "" [] [].

Definition set_resolveOnce (b : bool) (p : t) : t :=
  mk (Src p) (Platform p) b (resolveErr p) (desc p) (configDesc p)
     (ref p) (layers p) (nonlayers p).
Definition set_resolveErr (e : option error) (p : t) : t :=
  mk (Src p) (Platform p) (resolveOnce p) e (desc p) (configDesc p)
     (ref p) (layers p) (nonlayers p).
Definition set_desc (d : ocispec.Descriptor) (p : t) : t :=
  mk (Src p) (Platform p) (resolveOnce p) (resolveErr p) d (configDesc p)
     (ref p) (layers p) (nonlayers p).
Definition set_configDesc (d : ocispec.Descriptor) (p : t) : t :=
  mk (Src p) (Platform p) (resolveOnce p) (resolveErr p) (desc p) d
     (ref p) (layers p) (nonlayers p).
Definition set_ref (r : string) (p : t) : t :=
  mk (Src p) (Platform p) (resolveOnce p) (resolveErr p) (desc p)
     (configDesc p) r (layers p) (nonlayers p).
Definition set_layers (l : list ocispec.Descriptor) (p : t) : t :=
  mk (Src p) (Platform p) (resolveOnce p) (resolveErr p) (desc p)
     (configDesc p) (ref p) l (nonlayers p).
Definition set_nonlayers (l : list ocispec.Descriptor) (p : t) : t :=
  mk (Src p) (Platform p) (resolveOnce p) (resolveErr p) (desc p)
     (configDesc p) (ref p) (layers p) l.
End Puller.

Module solver.
(** [solver.Remote]: the provider is always the puller itself. *)
Record Remote := mkRemote {
  Descriptors : list ocispec.Descriptor
}.
End solver.

Module PulledManifests.
Record t := mk {
  Ref : string;
  MainManifestDesc : ocispec.Descriptor;
  ConfigDesc : ocispec.Descriptor;
  Nonlayers : list ocispec.Descriptor;
  Remote : solver.Remote
}.
End PulledManifests.

(** ** Collaborators *)

(** The handlers that containerd builds for the walk. *)
Inductive ext_handler (Fetcher : Type) :=
| H_schema1Converter (f : Fetcher)
| H_FetchHandler (f : Fetcher)
| H_childrenLimited (pl : ocispec.Platform)
| H_childrenFiltered (pl : ocispec.Platform)
| H_dslHandler (ref : string).
Arguments H_schema1Converter {Fetcher} f.
Arguments H_FetchHandler {Fetcher} f.
Arguments H_childrenLimited {Fetcher} pl.
Arguments H_childrenFiltered {Fetcher} pl.
Arguments H_dslHandler {Fetcher} ref.

(** The environment of a puller.  [World] is the state of everything the
    package does not own: the blobs of the content store, the registry,
    the converter's buffers, the runtime's choice of map iteration order.
    Every collaborator reads and updates it. *)
Class Env := {
  World : Type;
  Fetcher : Type;
  ContentReaderAt : Type;

  (** media types declared by [images] and [ocispec] *)
  images_MediaTypeDockerSchema1Manifest : string;
  images_MediaTypeDockerSchema2Config : string;
  ocispec_MediaTypeImageConfig : string;
  ocispec_MediaTypeImageLayer : string;
  images_MediaTypeDockerSchema2Layer : string;
  ocispec_MediaTypeImageLayerGzip : string;
  images_MediaTypeDockerSchema2LayerGzip : string;
  images_MediaTypeDockerSchema2LayerForeign : string;
  images_MediaTypeDockerSchema2LayerForeignGzip : string;

  (** [content.Store] *)
  ContentStore_Info : digest.Digest → World → result Z * World;
  ContentStore_ReaderAt :
    ocispec.Descriptor → World → result ContentReaderAt * World;
  (** [imageutil.DetectManifestMediaType] *)
  imageutil_DetectManifestMediaType :
    ContentReaderAt → World → result string * World;
  (** [remotes.Resolver] *)
  Resolver_Resolve :
    string → World → result (string * ocispec.Descriptor) * World;
  Resolver_Fetcher : string → World → result Fetcher * World;
  (** [contentutil.FromFetcher(f).ReaderAt] *)
  contentutil_FromFetcher_ReaderAt :
    Fetcher → ocispec.Descriptor → World → result ContentReaderAt * World;
  (** [docker.AppendDistributionSourceLabel] *)
  docker_AppendDistributionSourceLabel :
    string → World → result unit * World;
  (** one call of a containerd handler on a descriptor *)
  ext_Handle :
    ext_handler Fetcher → ocispec.Descriptor → World →
    result (list ocispec.Descriptor) * World;
  (** [schema1.Converter.Convert]: both values of the pair are kept, the
      caller assigns the descriptor before it looks at the error. *)
  schema1_Convert :
    Fetcher → World → (ocispec.Descriptor * option error) * World;
  (** [images.Manifest] and [images.Image.RootFS] over the store *)
  images_Manifest :
    ocispec.Descriptor → ocispec.Platform → World →
    result ocispec.Manifest * World;
  images_RootFS :
    ocispec.Descriptor → ocispec.Platform → World →
    result (list digest.Digest) * World;
  (** the order in which [range] visits a map: some enumeration of its
      entries, each once *)
  range_order :
    gmap digest.Digest ocispec.Descriptor → World →
    list (digest.Digest * ocispec.Descriptor);
  range_order_perm : ∀ m w, range_order m w ≡ₚ map_to_list m
}.

(** Calls to collaborators, as recorded in the trace: the arguments of the
    call and what it returned. *)
Inductive Event `{Env} :=
| EvInfo (d : digest.Digest) (r : result Z)
| EvStoreReaderAt (d : ocispec.Descriptor) (r : result ContentReaderAt)
| EvDetect (ra : ContentReaderAt) (r : result string)
| EvResolve (ref : string) (r : result (string * ocispec.Descriptor))
| EvFetcher (ref : string) (r : result Fetcher)
| EvFromFetcherReaderAt (f : Fetcher) (d : ocispec.Descriptor)
    (r : result ContentReaderAt)
| EvAppendDSL (ref : string) (r : result unit)
| EvHandle (h : ext_handler Fetcher) (d : ocispec.Descriptor)
    (r : result (list ocispec.Descriptor))
| EvConvert (f : Fetcher) (r : ocispec.Descriptor * option error)
| EvManifest (d : ocispec.Descriptor) (pl : ocispec.Platform)
    (r : result ocispec.Manifest)
| EvRootFS (d : ocispec.Descriptor) (pl : ocispec.Platform)
    (r : result (list digest.Digest)).

(** ** Program state and its monad *)

Record State `{Env} := mkState {
  puller : Puller.t;
  (** the map [metadata] of the running [PullManifests]; [None] is nil *)
  metadata : option (gmap digest.Digest ocispec.Descriptor);
  world : World;
  trace : list Event
}.
Arguments mkState {_} _ _ _ _.

Definition M `{Env} (A : Type) : Type := State → A * State.

Definition ret `{Env} {A} (a : A) : M A := fun s => (a, s).

Definition bind `{Env} {A B} (m : M A) (k : A → M B) : M B :=
  fun s => let (a, s1) := m s in k a s1.

Notation "'let!' x ':=' m 'in' k" := (bind m (fun x => k))
  (at level 10, x name, m at level 200, k at level 200).

(** A collaborator is called with the current world, and the call is
    appended to the trace. *)
Definition call `{Env} {A} (ev : A → Event) (o : World → A * World)
    : M A :=
  fun s =>
    let (a, w) := o (world s) in
    (a, mkState (puller s) (metadata s) w (trace s ++ [ev a])).

Definition get_p `{Env} : M Puller.t := fun s => (puller s, s).

Definition modify_p `{Env} (f : Puller.t → Puller.t) : M unit :=
  fun s => (tt, mkState (f (puller s)) (metadata s) (world s) (trace s)).

Definition get_metadata `{Env} :
  M (option (gmap digest.Digest ocispec.Descriptor)) :=
  fun s => (metadata s, s).

Definition set_metadata `{Env}
    (m : option (gmap digest.Digest ocispec.Descriptor)) : M unit :=
  fun s => (tt, mkState (puller s) m (world s) (trace s)).

Definition get_world `{Env} : M World := fun s => (world s, s).

(** ** Resolution *)

(** [func (p *Puller) tryLocalResolve(ctx) error] *)
Definition tryLocalResolve `{Env} : M (option error) :=
  let! p := get_p in
  let dgst := reference.Digest (Puller.Src p) in
  if bool_decide (dgst = "") then ret (Some (errors_New "empty digest"))
  else
    let! info := call (EvInfo dgst) (ContentStore_Info dgst) in
    match info with
    | Err err => ret (Some err)
    | Ok size =>
        let desc := ocispec.mkDescriptor "" dgst size [] None None in
        let! _ :=
          modify_p (Puller.set_ref (reference.String (Puller.Src p))) in
        let! ra := call (EvStoreReaderAt desc) (ContentStore_ReaderAt desc) in
        match ra with
        | Err err => ret (Some err)
        | Ok ra =>
            let! mt :=
              call (EvDetect ra) (imageutil_DetectManifestMediaType ra) in
            match mt with
            | Err err => ret (Some err)
            | Ok mt =>
                let desc :=
                  ocispec.mkDescriptor mt dgst size [] None None in
                let! _ := modify_p (Puller.set_desc desc) in
                ret None
            end
        end
    end.

(** The function passed to [p.resolveOnce.Do]. *)
Definition resolve_body `{Env} : M unit :=
  let! local := tryLocalResolve in
  match local with
  | None => ret tt
  | Some _ =>
      let! p := get_p in
      let src := reference.String (Puller.Src p) in
      let! r := call (EvResolve src) (Resolver_Resolve src) in
      match r with
      | Err err => modify_p (Puller.set_resolveErr (Some err))
      | Ok (ref, desc) =>
          let! _ := modify_p (Puller.set_desc desc) in
          modify_p (Puller.set_ref ref)
      end
  end.

(** [sync.Once.Do]: the body runs if the flag is not set, and the flag is
    set when it returns. *)
Definition once_Do `{Env} (f : M unit) : M unit :=
  let! p := get_p in
  if Puller.resolveOnce p then ret tt
  else let! _ := f in modify_p (Puller.set_resolveOnce true).

(** [func (p *Puller) resolve(ctx) error] *)
Definition resolve `{Env} : M (option error) :=
  let! _ := once_Do resolve_body in
  let! p := get_p in
  ret (Puller.resolveErr p).

(** ** The handler chain and the walk *)

(** How a Go call can end in this model: it returns, it panics, or (for
    the graph walk, which recurses on what the handlers produce) the fuel
    given to the model runs out before the walk is over. *)
Inductive outcome (A : Type) :=
| Returns (a : A)
| Panics (msg : string)
| OutOfFuel.
Arguments Returns {A} a.
Arguments Panics {A} msg.
Arguments OutOfFuel {A}.

(** [images.HandlerFunc] *)
Definition Handler `{Env} : Type :=
  ocispec.Descriptor → M (result (list ocispec.Descriptor)).

(** A handler built by containerd, called on [desc]. *)
Definition ext `{Env} (h : ext_handler Fetcher) : Handler :=
  fun desc => call (EvHandle h desc) (ext_Handle h desc).

(** The case list of the [switch] in [filterLayerBlobs]. *)
Definition layerMediaTypes `{Env} : list string :=
  [ ocispec_MediaTypeImageLayer;
    images_MediaTypeDockerSchema2Layer;
    ocispec_MediaTypeImageLayerGzip;
    images_MediaTypeDockerSchema2LayerGzip;
    images_MediaTypeDockerSchema2LayerForeign;
    images_MediaTypeDockerSchema2LayerForeignGzip ].

(** [func filterLayerBlobs(metadata, mu) images.HandlerFunc].  The map
    argument is the cell [metadata] of the state; the lock around the write
    has no counterpart in a sequential model. *)
Definition filterLayerBlobs `{Env} : Handler :=
  fun desc =>
    if bool_decide (ocispec.MediaType desc ∈ layerMediaTypes)
    then ret (Err images_ErrSkipDesc)
    else
      let! md := get_metadata in
      match md with
      | Some m =>
          let! _ := set_metadata (Some (<[ocispec.Digest desc := desc]> m)) in
          ret (Ok [])
      | None => ret (Ok [])
      end.

(** Modelled from the spec: [images.Handlers] is containerd's and not part
    of the package.  The handlers are applied to the node one after the
    other; the first one that reports an error (the skip signal is one)
    ends the chain with it, otherwise the children are put together. *)
Fixpoint images_Handlers `{Env} (handlers : list Handler) : Handler :=
  fun desc =>
    match handlers with
    | [] => ret (Ok [])
    | h :: rest =>
        let! r := h desc in
        match r with
        | Err e => ret (Err e)
        | Ok ch =>
            let! r' := images_Handlers rest desc in
            match r' with
            | Err e => ret (Err e)
            | Ok ch' => ret (Ok (ch ++ ch'))
            end
        end
    end.

(** The cause of an error, through the wrappers of [pkg/errors]. *)
Fixpoint errors_Cause (e : error) : error :=
  match e with
  | errors_WithStack e' => errors_Cause e'
  | errors_Wrap e' _ => errors_Cause e'
  | _ => e
  end.

Definition is_ErrSkipDesc (e : error) : bool :=
  match errors_Cause e with
  | images_ErrSkipDesc => true
  | _ => false
  end.

(** Modelled from the spec: [images.Dispatch] is containerd's and not part
    of the package.  Every descriptor is handed to the handler; a skip
    signal leaves the node and its subtree and goes on with the siblings,
    any other error aborts the walk, and otherwise the walk descends into
    the children the handler returned.  Branches are visited one after the
    other here, left to right and depth first. *)
Fixpoint images_Dispatch `{Env} (fuel : nat) (handler : Handler)
    (descs : list ocispec.Descriptor) : M (outcome (option error)) :=
  match fuel with
  | O => ret OutOfFuel
  | S fuel' =>
      match descs with
      | [] => ret (Returns None)
      | desc :: rest =>
          let! r := handler desc in
          match r with
          | Err e =>
              if is_ErrSkipDesc e
              then images_Dispatch fuel' handler rest
              else ret (Returns (Some e))
          | Ok children =>
              let! sub := images_Dispatch fuel' handler children in
              match sub with
              | Returns None => images_Dispatch fuel' handler rest
              | other => ret other
              end
          end
      end
  end.

(** ** Layer reconciliation *)

(** The body of the loop of [getLayers] for one index: the descriptor of
    the manifest gets an annotation map if it has none, and the diff ID is
    written under the key of the uncompressed digest. *)
Definition annotate (desc : ocispec.Descriptor) (diffID : digest.Digest)
    : ocispec.Descriptor :=
  let annotations :=
    match ocispec.Annotations desc with
    | None => ∅
    | Some a => a
    end in
  ocispec.mkDescriptor
    (ocispec.MediaType desc) (ocispec.Digest desc) (ocispec.Size desc)
    (ocispec.URLs desc)
    (Some (<["containerd.io/uncompressed" := digest.String diffID]>
             annotations))
    (ocispec.DescPlatform desc).

(** [for i := range diffIDs { .. layers[i] = desc }], over the indices
    still to visit.  [None] is the panic of an index out of range. *)
Fixpoint getLayers_loop (indices : list nat) (diffIDs : list digest.Digest)
    (manifestLayers layers : list ocispec.Descriptor)
    : option (list ocispec.Descriptor) :=
  match indices with
  | [] => Some layers
  | i :: indices' =>
      match manifestLayers !! i, diffIDs !! i with
      | Some desc, Some diffID =>
          if bool_decide (i < length layers)%nat
          then getLayers_loop indices' diffIDs manifestLayers
                 (<[i := annotate desc diffID]> layers)
          else None
      | _, _ => None
      end
  end.

(** [getLayers] from the comparison of the two lengths to its end, where
    no collaborator is called any more. *)
Definition annotateLayers (diffIDs : list digest.Digest)
    (manifestLayers : list ocispec.Descriptor)
    : outcome (result (list ocispec.Descriptor)) :=
  if bool_decide (length diffIDs ≠ length manifestLayers)
  then
    Returns (Err (errors_Errorf
      "mismatched image rootfs and manifest layers %+v %+v"
      [ArgDigests diffIDs; ArgDescriptors manifestLayers]))
  else
    let layers := replicate (length diffIDs) ocispec.zero in
    match getLayers_loop (seq 0 (length diffIDs)) diffIDs
            manifestLayers layers with
    | Some layers => Returns (Ok layers)
    | None => Panics "index out of range"
    end.

(** [func getLayers(ctx, provider, desc, platform)]; the provider is the
    content store of the puller. *)
Definition getLayers `{Env} (desc : ocispec.Descriptor)
    (platform : ocispec.Platform)
    : M (outcome (result (list ocispec.Descriptor))) :=
  let! m := call (EvManifest desc platform) (images_Manifest desc platform) in
  match m with
  | Err err => ret (Returns (Err (errors_WithStack err)))
  | Ok manifest =>
      let! r := call (EvRootFS desc platform) (images_RootFS desc platform) in
      match r with
      | Err err =>
          ret (Returns (Err (errors_Wrap err "failed to resolve rootfs")))
      | Ok diffIDs =>
          ret (annotateLayers diffIDs (ocispec.Layers manifest))
      end
  end.

(** ** The orchestrator *)

(** The case list of the [switch] in the loop over [metadata]. *)
Definition configMediaTypes `{Env} : list string :=
  [ images_MediaTypeDockerSchema2Config; ocispec_MediaTypeImageConfig ].

(** One turn of [for _, desc := range metadata]. *)
Definition collect_step `{Env} (p : Puller.t) (desc : ocispec.Descriptor)
    : Puller.t :=
  let p1 := Puller.set_nonlayers (Puller.nonlayers p ++ [desc]) p in
  if bool_decide (ocispec.MediaType desc ∈ configMediaTypes)
  then Puller.set_configDesc desc p1
  else p1.

(** The whole loop; a nil map has no entries. *)
Definition collect_metadata `{Env} : M unit :=
  let! md := get_metadata in
  let! w := get_world in
  let entries :=
    match md with
    | Some m => range_order m w
    | None => []
    end in
  modify_p (fun p => foldl collect_step p (entries.*2)).

(** The handlers of the normal path, in the order of the [append]. *)
Definition normal_handlers `{Env} (fetcher : Fetcher)
    (platform : ocispec.Platform) (ref : string) : list Handler :=
  [ filterLayerBlobs;
    ext (H_FetchHandler fetcher);
    ext (H_childrenLimited platform);
    ext (H_dslHandler ref) ].

(** The handlers of the second walk of the schema1 path. *)
Definition gather_handlers `{Env} (platform : ocispec.Platform)
    : list Handler :=
  [ filterLayerBlobs; ext (H_childrenFiltered platform) ].

(** [PullManifests] from the conversion of a schema1 image to the end of
    the second walk (the body of [if schema1Converter != nil]). *)
Definition convert_and_gather `{Env} (fuel : nat) (fetcher : Fetcher)
    (platform : ocispec.Platform) : M (outcome (option error)) :=
  let! c := call (EvConvert fetcher) (schema1_Convert fetcher) in
  let! _ := modify_p (Puller.set_desc (fst c)) in
  match snd c with
  | Some err => ret (Returns (Some err))
  | None =>
      images_Dispatch fuel (images_Handlers (gather_handlers platform))
        [fst c]
  end.

(** [PullManifests] from the loop over [metadata] to the end. *)
Definition collect_and_reconcile `{Env}
    (platform : ocispec.Platform)
    : M (outcome (result PulledManifests.t)) :=
  let! _ := collect_metadata in
  let! p := get_p in
  let! ls := getLayers (Puller.desc p) platform in
  match ls with
  | OutOfFuel => ret OutOfFuel
  | Panics msg => ret (Panics msg)
  | Returns (Err err) =>
      let! _ := modify_p (Puller.set_layers []) in
      ret (Returns (Err err))
  | Returns (Ok ls) =>
      let! _ := modify_p (Puller.set_layers ls) in
      let! p := get_p in
      ret (Returns (Ok (PulledManifests.mk
        (Puller.ref p) (Puller.desc p) (Puller.configDesc p)
        (Puller.nonlayers p) (solver.mkRemote (Puller.layers p)))))
  end.

(** [PullManifests] from the first walk on, the fetcher being at hand. *)
Definition walk_and_reconcile `{Env} (fuel : nat) (fetcher : Fetcher)
    (platform : ocispec.Platform)
    : M (outcome (result PulledManifests.t)) :=
  let! p := get_p in
  let schema1 :=
    bool_decide (ocispec.MediaType (Puller.desc p)
                 = images_MediaTypeDockerSchema1Manifest) in
  let! hs :=
    (if schema1
     then ret (Ok [ext (H_schema1Converter fetcher)])
     else
       let! dsl :=
         call (EvAppendDSL (Puller.ref p))
              (docker_AppendDistributionSourceLabel (Puller.ref p)) in
       match dsl with
       | Err err => ret (Err err)
       | Ok _ => ret (Ok (normal_handlers fetcher platform (Puller.ref p)))
       end) in
  match hs with
  | Err err => ret (Returns (Err err))
  | Ok handlers =>
      let! w :=
        images_Dispatch fuel (images_Handlers handlers) [Puller.desc p] in
      match w with
      | OutOfFuel => ret OutOfFuel
      | Panics msg => ret (Panics msg)
      | Returns (Some err) => ret (Returns (Err err))
      | Returns None =>
          let! c :=
            (if schema1
             then convert_and_gather fuel fetcher platform
             else ret (Returns None)) in
          match c with
          | OutOfFuel => ret OutOfFuel
          | Panics msg => ret (Panics msg)
          | Returns (Some err) => ret (Returns (Err err))
          | Returns None => collect_and_reconcile platform
          end
      end
  end.

(** [func (p *Puller) PullManifests(ctx)], returning a pointer to a
    [PulledManifests] or an error.  The
    walk gets [fuel] steps; [platforms.Only(p.Platform)] is passed on as
    the platform it is built from. *)
Definition PullManifests `{Env} (fuel : nat)
    : M (outcome (result PulledManifests.t)) :=
  let! err := resolve in
  match err with
  | Some err => ret (Returns (Err err))
  | None =>
      let! p := get_p in
      let platform := Puller.Platform p in
      let! _ := set_metadata (Some ∅) in
      let! f :=
        call (EvFetcher (Puller.ref p)) (Resolver_Fetcher (Puller.ref p)) in
      match f with
      | Err err => ret (Returns (Err err))
      | Ok fetcher => walk_and_reconcile fuel fetcher platform
      end
  end.

(** [func (p *Puller) ReaderAt(ctx, desc) (content.ReaderAt, error)] *)
Definition ReaderAt `{Env} (desc : ocispec.Descriptor)
    : M (result ContentReaderAt) :=
  let! err := resolve in
  match err with
  | Some err => ret (Err err)
  | None =>
      let! p := get_p in
      let! f :=
        call (EvFetcher (Puller.ref p)) (Resolver_Fetcher (Puller.ref p)) in
      match f with
      | Err err => ret (Err err)
      | Ok fetcher =>
          call (EvFromFetcherReaderAt fetcher desc)
               (contentutil_FromFetcher_ReaderAt fetcher desc)
      end
  end.

(** ** Sequences of calls on one puller *)

(** What can happen to a puller and its surroundings between two moments:
    the exported methods, the unexported [resolve], and a change of the
    world by somebody else (a blob written, a registry going down). *)
Inductive op `{Env} :=
| CallResolve
| CallPullManifests (fuel : nat)
| CallReaderAt (desc : ocispec.Descriptor)
| Elsewhere (change : World → World).

Definition run_op `{Env} (o : op) (s : State) : State :=
  match o with
  | CallResolve => snd (resolve s)
  | CallPullManifests fuel => snd (PullManifests fuel s)
  | CallReaderAt desc => snd (ReaderAt desc s)
  | Elsewhere change =>
      mkState (puller s) (metadata s) (change (world s)) (trace s)
  end.

Definition run_ops `{Env} (ops : list op) (s : State) : State :=
  foldl (fun s o => run_op o s) s ops.

(** Calls of [Resolver.Resolve] in a trace. *)
Definition is_EvResolve `{Env} (ev : Event) : bool :=
  match ev with
  | EvResolve _ _ => true
  | _ => false
  end.

Definition resolve_calls `{Env} (tr : list Event) : nat :=
  length (filter (fun ev => is_EvResolve ev = true) tr).

(** Reads of the local content store in a trace. *)
Definition is_store_read `{Env} (ev : Event) : bool :=
  match ev with
  | EvInfo _ _ | EvStoreReaderAt _ _ => true
  | _ => false
  end.

(** Calls of the handlers of containerd in a trace. *)
Definition is_EvHandle `{Env} (ev : Event) : bool :=
  match ev with
  | EvHandle _ _ _ => true
  | _ => false
  end.

(** The calls a resolution can make. *)
Definition is_resolution_event `{Env} (ev : Event) : bool :=
  match ev with
  | EvInfo _ _ | EvStoreReaderAt _ _ | EvDetect _ _ | EvResolve _ _ => true
  | _ => false
  end.

(** The calls [PullManifests] makes between the resolution and the loop
    over [metadata]. *)
Definition is_walk_event `{Env} (ev : Event) : bool :=
  match ev with
  | EvFetcher _ _ | EvAppendDSL _ _ | EvHandle _ _ _ | EvConvert _ _ => true
  | _ => false
  end.

(** The reads of the reconciliation. *)
Definition is_reconcile_event `{Env} (ev : Event) : bool :=
  match ev with
  | EvManifest _ _ _ | EvRootFS _ _ _ => true
  | _ => false
  end.

(** [s'] comes after [s] and every call made in between is in [P]. *)
Definition trace_ext `{Env} (P : Event → bool) (s s' : State) : Prop :=
  ∃ evs, trace s' = trace s ++ evs ∧ forallb P evs = true.

(** What a handler of the walk may do to the state: the puller is not
    touched, a map that is there stays there, and only handlers of
    containerd are called. *)
Definition stepped `{Env} (s s' : State) : Prop :=
  puller s' = puller s ∧
  (is_Some (metadata s) → is_Some (metadata s')) ∧
  trace_ext is_EvHandle s s'.

Definition handler_frame `{Env} (h : Handler) : Prop :=
  ∀ desc s, stepped s (snd (h desc s)).

(** What [PullManifests] may do to the state between the resolution and
    the loop over [metadata]: of the puller only [desc] can change, and
    only on the schema1 path. *)
Definition walked `{Env} (s s' : State) : Prop :=
  Puller.Src (puller s') = Puller.Src (puller s) ∧
  Puller.Platform (puller s') = Puller.Platform (puller s) ∧
  Puller.resolveOnce (puller s') = Puller.resolveOnce (puller s) ∧
  Puller.resolveErr (puller s') = Puller.resolveErr (puller s) ∧
  Puller.ref (puller s') = Puller.ref (puller s) ∧
  Puller.configDesc (puller s') = Puller.configDesc (puller s) ∧
  Puller.layers (puller s') = Puller.layers (puller s) ∧
  Puller.nonlayers (puller s') = Puller.nonlayers (puller s) ∧
  (ocispec.MediaType (Puller.desc (puller s))
     ≠ images_MediaTypeDockerSchema1Manifest →
   Puller.desc (puller s') = Puller.desc (puller s)) ∧
  (is_Some (metadata s) → is_Some (metadata s')) ∧
  trace_ext is_walk_event s s'.



(** An outcome other than a successful return. *)
Definition stopped {A} (out : outcome (result A)) : Prop :=
  match out with
  | Returns (Ok _) => False
  | _ => True
  end.

(** ** A small registry to run the model on *)

Module demo.
Definition manifestDesc : ocispec.Descriptor :=
  ocispec.mkDescriptor
    "application/vnd.docker.distribution.manifest.v2+json"
    "sha256:manifest" 7%Z [] None None.
Definition configDesc : ocispec.Descriptor :=
  ocispec.mkDescriptor
    "application/vnd.docker.container.image.v1+json"
    "sha256:config" 3%Z [] None None.
Definition layer1 : ocispec.Descriptor :=
  ocispec.mkDescriptor
    "application/vnd.docker.image.rootfs.diff.tar.gzip"
    "sha256:layer1" 11%Z [] None None.
Definition layer2 : ocispec.Descriptor :=
  ocispec.mkDescriptor
    "application/vnd.docker.image.rootfs.diff.tar.gzip"
    "sha256:layer2" 12%Z [] (Some {[ "origin" := "base" ]}) None.

Definition manifest : ocispec.Manifest :=
  ocispec.mkManifest configDesc [layer1; layer2].

Definition not_found : error := external_error "not found".

(** The world is the set of digests held by the local store.  The
    registry answers when [remote_up]; the image config lists
    [diffIDs]. *)
Definition env (remote_up : bool) (diffIDs : list digest.Digest) : Env :=
  {| World := gset string;
     Fetcher := string;
     ContentReaderAt := string;
     images_MediaTypeDockerSchema1Manifest :=
       "application/vnd.docker.distribution.manifest.v1+prettyjws";
     images_MediaTypeDockerSchema2Config :=
       "application/vnd.docker.container.image.v1+json";
     ocispec_MediaTypeImageConfig :=
       "application/vnd.oci.image.config.v1+json";
     ocispec_MediaTypeImageLayer :=
       "application/vnd.oci.image.layer.v1.tar";
     images_MediaTypeDockerSchema2Layer :=
       "application/vnd.docker.image.rootfs.diff.tar";
     ocispec_MediaTypeImageLayerGzip :=
       "application/vnd.oci.image.layer.v1.tar+gzip";
     images_MediaTypeDockerSchema2LayerGzip :=
       "application/vnd.docker.image.rootfs.diff.tar.gzip";
     images_MediaTypeDockerSchema2LayerForeign :=
       "application/vnd.docker.image.rootfs.foreign.diff.tar";
     images_MediaTypeDockerSchema2LayerForeignGzip :=
       "application/vnd.docker.image.rootfs.foreign.diff.tar.gzip";
     ContentStore_Info := fun d w =>
       (if bool_decide (d ∈ w) then Ok 7%Z else Err not_found, w);
     ContentStore_ReaderAt := fun d w =>
       (if bool_decide (ocispec.Digest d ∈ w)
        then Ok (ocispec.Digest d) else Err not_found, w);
     imageutil_DetectManifestMediaType := fun ra w =>
       (if bool_decide (ra = "sha256:manifest")
        then Ok (ocispec.MediaType manifestDesc)
        else Err (external_error "not a manifest"), w);
     Resolver_Resolve := fun ref w =>
       (if remote_up then Ok (ref, manifestDesc)
        else Err (external_error "registry unreachable"), w);
     Resolver_Fetcher := fun ref w => (Ok ref, w);
     contentutil_FromFetcher_ReaderAt := fun f d w =>
       (if remote_up then Ok (ocispec.Digest d)
        else Err (external_error "registry unreachable"), w);
     docker_AppendDistributionSourceLabel := fun ref w => (Ok tt, w);
     ext_Handle := fun h d w =>
       match h with
       | H_FetchHandler _ => (Ok [], {[ ocispec.Digest d ]} ∪ w)
       | H_childrenLimited _ | H_childrenFiltered _ =>
           (if bool_decide (ocispec.Digest d = "sha256:manifest")
            then Ok [configDesc; layer1; layer2] else Ok [], w)
       | H_schema1Converter _ | H_dslHandler _ => (Ok [], w)
       end;
     schema1_Convert := fun f w => ((manifestDesc, None), w);
     images_Manifest := fun d pl w => (Ok manifest, w);
     images_RootFS := fun d pl w => (Ok diffIDs, w);
     range_order := fun m w => map_to_list m;
     range_order_perm := fun m w => Permutation_refl (map_to_list m)
  |}.

Definition linux : ocispec.Platform :=
  ocispec.mkPlatform "amd64" "linux" "".

(** A reference by tag, and one by digest. *)
Definition by_tag : reference.Spec :=
  reference.mkSpec "docker.io/library/busybox:latest" "".
Definition by_digest : reference.Spec :=
  reference.mkSpec "docker.io/library/busybox@sha256:manifest"
    "sha256:manifest".

(** A new puller in front of a store that holds [blobs]. *)
Definition start (E : Env) (src : reference.Spec) (blobs : @World E)
    : @State E :=
  @mkState E (Puller.new src linux) None blobs [].

Definition diffIDs2 : list digest.Digest := ["sha256:diff1"; "sha256:diff2"].
Definition diffIDs3 : list digest.Digest :=
  ["sha256:diff1"; "sha256:diff2"; "sha256:diff3"].
End demo.

Module demo_runs.
Import demo.

(** The registry is up and the config lists a diff ID per layer; the
    registry is down; the config lists one diff ID too many. *)
Definition up : Env := env true diffIDs2.
Definition down : Env := env false diffIDs2.
Definition broken : Env := env true diffIDs3.

(** A store without blobs, and one that holds the manifest. *)
Definition cold : gset string := ∅.
Definition warm : gset string := {[ "sha256:manifest" ]}.

(** The layers of the manifest with their diff IDs. *)
Definition annotated1 : ocispec.Descriptor :=
  ocispec.mkDescriptor
    "application/vnd.docker.image.rootfs.diff.tar.gzip"
    "sha256:layer1" 11%Z []
    (Some {[ "containerd.io/uncompressed" := "sha256:diff1" ]}) None.
Definition annotated2 : ocispec.Descriptor :=
  ocispec.mkDescriptor
    "application/vnd.docker.image.rootfs.diff.tar.gzip"
    "sha256:layer2" 12%Z []
    (Some (<[ "containerd.io/uncompressed" := "sha256:diff2" ]>
             {[ "origin" := "base" ]})) None.

(** What a first and a second pull by tag return when the registry is
    up. *)
Definition pulled : PulledManifests.t :=
  PulledManifests.mk "docker.io/library/busybox:latest" manifestDesc
    configDesc [configDesc; manifestDesc]
    (solver.mkRemote [annotated1; annotated2]).
Definition pulled_again : PulledManifests.t :=
  PulledManifests.mk "docker.io/library/busybox:latest" manifestDesc
    configDesc [configDesc; manifestDesc; configDesc; manifestDesc]
    (solver.mkRemote [annotated1; annotated2]).

(** The states of a puller by tag before, between and after two pulls. *)
Definition s0 : @State up := start up by_tag cold.
Definition s1 : @State up := snd (@PullManifests up 10 s0).
Definition s2 : @State up := snd (@PullManifests up 10 s1).

(** The mismatch error of the broken image. *)
Definition mismatch : error :=
  errors_Errorf "mismatched image rootfs and manifest layers %+v %+v"
    [ArgDigests diffIDs3; ArgDescriptors [layer1; layer2]].
End demo_runs.

(** A metadata map as the filter fills it: every key is the digest of the
    descriptor stored under it, and no stored descriptor is a layer. *)
Definition well_keyed `{Env}
    (md : option (gmap digest.Digest ocispec.Descriptor)) : Prop :=
  ∀ m, md = Some m →
    ∀ k d, m !! k = Some d →
      ocispec.Digest d = k ∧ ocispec.MediaType d ∉ layerMediaTypes.

Definition is_schema1Converter {F} (h : ext_handler F) : bool :=
  match h with
  | H_schema1Converter _ => true
  | _ => false
  end.

(** Calls that keep a pull lazy: no handler but the schema1 converter is
    called on a descriptor of a layer media type. *)
Definition is_lazy_event `{Env} (ev : Event) : bool :=
  match ev with
  | EvHandle h d _ =>
      is_schema1Converter h
      || negb (bool_decide (ocispec.MediaType d ∈ layerMediaTypes))
  | _ => true
  end.

(** The calls of the walk on the normal path, and on the schema1 path. *)
Definition on_normal_path `{Env} (ev : Event) : bool :=
  match ev with
  | EvFetcher _ _ | EvAppendDSL _ _ => true
  | EvHandle (H_FetchHandler _) _ _
  | EvHandle (H_childrenLimited _) _ _
  | EvHandle (H_dslHandler _) _ _ => true
  | _ => false
  end.

Definition on_schema1_path `{Env} (ev : Event) : bool :=
  match ev with
  | EvFetcher _ _ | EvConvert _ _ => true
  | EvHandle (H_schema1Converter _) _ _
  | EvHandle (H_childrenFiltered _) _ _ => true
  | _ => false
  end.

(** The state with another root descriptor in the puller. *)
Definition with_desc `{Env} (d : ocispec.Descriptor) (s : State) : State :=
  mkState (Puller.set_desc d (puller s)) (metadata s) (world s) (trace s).

(** The state in which the walk of a pull starts: the map is made. *)
Definition with_new_metadata `{Env} (s : State) : State :=
  mkState (puller s) (Some ∅) (world s) (trace s).

(** A handler of the walk keeps the relation [I] between the state before
    and the state after. *)
Definition handler_keeps `{Env} (I : State → State → Prop) (h : Handler)
    : Prop :=
  ∀ desc s, I s (snd (h desc s)).

(** * Properties *)

(** ** Traces *)

Section Traces.
Context `{Env}.

Lemma trace_ext_refl P s : trace_ext P s s.
Proof. exists []. by rewrite app_nil_r. Qed.

Lemma trace_ext_trans P s1 s2 s3 :
  trace_ext P s1 s2 → trace_ext P s2 s3 → trace_ext P s1 s3.
Proof.
  intros (e1 & H1 & F1) (e2 & H2 & F2). exists (e1 ++ e2). split.
  - by rewrite H2, H1, app_assoc.
  - by rewrite forallb_app, F1, F2.
Qed.

Lemma trace_ext_same_trace P s s1 s2 :
  trace s2 = trace s1 → trace_ext P s s1 → trace_ext P s s2.
Proof. intros Heq (evs & Ht & HF). exists evs. by rewrite Heq. Qed.

Lemma trace_ext_weaken (P Q : Event → bool) s s' :
  (∀ ev, P ev = true → Q ev = true) →
  trace_ext P s s' → trace_ext Q s s'.
Proof.
  intros HPQ (evs & Ht & HF). exists evs. split; [done|].
  rewrite forallb_forall in *. auto.
Qed.

Lemma trace_ext_call {A} P (ev : A → Event) (o : World → A * World) s :
  (∀ a, P (ev a) = true) → trace_ext P s (snd (call ev o s)).
Proof.
  intros HP. unfold call. destruct (o (world s)) as [a w]. simpl.
  exists [ev a]. split; [done|]. simpl. by rewrite HP.
Qed.

Lemma resolve_calls_app (t1 t2 : list Event) :
  resolve_calls (t1 ++ t2) = (resolve_calls t1 + resolve_calls t2)%nat.
Proof. unfold resolve_calls. by rewrite filter_app, length_app. Qed.

Lemma resolve_calls_none (evs : list Event) :
  forallb (fun ev => negb (is_EvResolve ev)) evs = true →
  resolve_calls evs = 0%nat.
Proof.
  unfold resolve_calls. induction evs as [|ev evs IH]; [done|].
  simpl. intros [Hev Hevs]%andb_prop. rewrite filter_cons.
  destruct (is_EvResolve ev); [done|].
  destruct (decide (false = true)); [done|]. auto.
Qed.

Lemma trace_ext_resolve_calls s s' :
  trace_ext (fun ev => negb (is_EvResolve ev)) s s' →
  resolve_calls (trace s') = resolve_calls (trace s).
Proof.
  intros (evs & -> & HF). rewrite resolve_calls_app.
  rewrite (resolve_calls_none evs HF). lia.
Qed.
End Traces.

(** ** Resolution: what one call does *)

Section Resolution.
Context `{Env}.

(** Once the flag is set, [resolve] hands back the stored error and
    nothing else happens. *)
Lemma resolve_done s :
  Puller.resolveOnce (puller s) = true →
  resolve s = (Puller.resolveErr (puller s), s).
Proof.
  intros Hdone. unfold resolve, once_Do, bind, get_p, ret.
  by rewrite Hdone.
Qed.

(** The first call runs the body and sets the flag. *)
Lemma resolve_first s :
  Puller.resolveOnce (puller s) = false →
  resolve s =
    (let s1 := snd (resolve_body s) in
     (Puller.resolveErr (puller s1),
      mkState (Puller.set_resolveOnce true (puller s1))
              (metadata s1) (world s1) (trace s1))).
Proof.
  intros Hfresh. unfold resolve, once_Do, bind, get_p, ret, modify_p.
  rewrite Hfresh. by destruct (resolve_body s) as [[] s1].
Qed.

(** The local attempt leaves the flag and the stored error alone. *)
Lemma tryLocalResolve_frame s :
  let s1 := snd (tryLocalResolve s) in
  Puller.resolveOnce (puller s1) = Puller.resolveOnce (puller s) ∧
  Puller.resolveErr (puller s1) = Puller.resolveErr (puller s) ∧
  Puller.Src (puller s1) = Puller.Src (puller s) ∧
  Puller.Platform (puller s1) = Puller.Platform (puller s) ∧
  metadata s1 = metadata s ∧
  trace_ext (fun ev => is_resolution_event ev && negb (is_EvResolve ev))
    s s1.
Proof.
  unfold tryLocalResolve, bind, get_p, ret, call, modify_p.
  case_bool_decide; simpl.
  { repeat split; auto using trace_ext_refl. }
  destruct (ContentStore_Info _ _) as [[size|e] w1]; simpl.
  2: { repeat split; try done. by eexists [_]. }
  destruct (ContentStore_ReaderAt _ _) as [[ra|e] w2]; simpl.
  2: { repeat split; try done. eexists [_; _].
       by rewrite <- app_assoc. }
  destruct (imageutil_DetectManifestMediaType _ _) as [[mt|e] w3]; simpl.
  all: repeat split; try done.
  all: eexists [_; _; _].
  all: by rewrite <- !app_assoc.
Qed.

(** The flag is set after any call of [resolve], the value returned is
    the stored error, and at most one call of [Resolver.Resolve] has been
    added to the trace. *)
Lemma resolve_post s :
  let s1 := snd (resolve s) in
  fst (resolve s) = Puller.resolveErr (puller s1) ∧
  Puller.resolveOnce (puller s1) = true ∧
  Puller.Src (puller s1) = Puller.Src (puller s) ∧
  Puller.Platform (puller s1) = Puller.Platform (puller s) ∧
  metadata s1 = metadata s ∧
  trace_ext is_resolution_event s s1 ∧
  (resolve_calls (trace s1) ≤ resolve_calls (trace s) + 1)%nat.
Proof.
  destruct (Puller.resolveOnce (puller s)) eqn:Hflag.
  { rewrite (resolve_done s Hflag). simpl.
    repeat split; auto using trace_ext_refl. lia. }
  rewrite (resolve_first s Hflag). simpl.
  unfold resolve_body, bind.
  pose proof (tryLocalResolve_frame s) as Hloc.
  destruct (tryLocalResolve s) as [[e|] s1]; simpl in *.
  - destruct Hloc as (_ & _ & HSrc & Hpl & Hmd & Hext).
    assert (Hcalls : resolve_calls (trace s1) = resolve_calls (trace s)).
    { apply trace_ext_resolve_calls. revert Hext.
      apply trace_ext_weaken. by intros ev [_ ?]%andb_prop. }
    assert (Hext' : trace_ext is_resolution_event s s1).
    { revert Hext. apply trace_ext_weaken. by intros ev [? _]%andb_prop. }
    unfold get_p, call, modify_p, ret.
    destruct (Resolver_Resolve _ _) as [[[ref desc]|err] w]; simpl.
    all: repeat split; try done.
    all: try (eapply trace_ext_trans; [exact Hext'|by eexists [_]]).
    all: rewrite resolve_calls_app, Hcalls; unfold resolve_calls; simpl.
    all: lia.
  - destruct Hloc as (_ & _ & HSrc & Hpl & Hmd & Hext).
    repeat split; try done.
    + apply (trace_ext_same_trace _ _ s1); [done|]. revert Hext.
      apply trace_ext_weaken. by intros ev [? _]%andb_prop.
    + erewrite (trace_ext_resolve_calls s s1); [lia|]. revert Hext.
      apply trace_ext_weaken. by intros ev [_ ?]%andb_prop.
Qed.
End Resolution.

(** ** The walk *)

Section Walk.
Context `{Env}.

Lemma stepped_refl s : stepped s s.
Proof. repeat split; auto using trace_ext_refl. Qed.

Lemma stepped_trans s1 s2 s3 :
  stepped s1 s2 → stepped s2 s3 → stepped s1 s3.
Proof.
  intros (Hp1 & Hm1 & Ht1) (Hp2 & Hm2 & Ht2). repeat split.
  - congruence.
  - auto.
  - eauto using trace_ext_trans.
Qed.

Lemma filterLayerBlobs_frame : handler_frame filterLayerBlobs.
Proof.
  intros desc s. unfold filterLayerBlobs, bind, ret, get_metadata,
    set_metadata.
  case_bool_decide; simpl; [apply stepped_refl|].
  destruct (metadata s) as [m|] eqn:Hm; simpl.
  - repeat split; simpl; [eauto|]. apply (trace_ext_same_trace _ _ s);
      auto using trace_ext_refl.
  - apply stepped_refl.
Qed.

Lemma ext_frame h : handler_frame (ext h).
Proof.
  intros desc s. unfold ext. repeat split.
  - unfold call. by destruct (ext_Handle _ _ _).
  - unfold call. by destruct (ext_Handle _ _ _).
  - by apply trace_ext_call.
Qed.

Lemma images_Handlers_frame handlers :
  Forall handler_frame handlers → handler_frame (images_Handlers handlers).
Proof.
  induction 1 as [|h rest Hh Hrest IH]; intros desc s; simpl.
  { apply stepped_refl. }
  unfold bind. specialize (Hh desc s).
  destruct (h desc s) as [[ch|e] s1]; simpl in *; [|done].
  specialize (IH desc s1).
  destruct (images_Handlers rest desc s1) as [[ch'|e] s2]; simpl in *.
  all: by apply (stepped_trans _ s1).
Qed.

Lemma images_Dispatch_frame fuel handler descs s :
  handler_frame handler →
  stepped s (snd (images_Dispatch fuel handler descs s)).
Proof.
  intros Hh. revert descs s.
  induction fuel as [|fuel IH]; intros descs s; simpl.
  { apply stepped_refl. }
  destruct descs as [|desc rest]; [apply stepped_refl|].
  unfold bind. specialize (Hh desc s).
  destruct (handler desc s) as [[children|e] s1]; simpl in *.
  - pose proof (IH children s1) as Hsub.
    destruct (images_Dispatch fuel handler children s1)
      as [[[err|]|msg|] s2]; simpl in *.
    2: apply (stepped_trans _ s1); [done|];
       apply (stepped_trans _ s2); [done|apply IH].
    all: by apply (stepped_trans _ s1).
  - destruct (is_ErrSkipDesc e); simpl; [|done].
    apply (stepped_trans _ s1); [done|apply IH].
Qed.

(** The walk never panics: it ends, or the fuel does. *)
Lemma images_Dispatch_no_panic fuel handler descs s :
  ∀ msg, fst (images_Dispatch fuel handler descs s) ≠ Panics msg.
Proof.
  revert descs s. induction fuel as [|fuel IH]; intros descs s; simpl.
  { done. }
  destruct descs as [|desc rest]; [done|].
  unfold bind. destruct (handler desc s) as [[children|e] s1]; simpl.
  - pose proof (IH children s1) as Hsub.
    destruct (images_Dispatch fuel handler children s1)
      as [[[err|]|msg'|] s2]; simpl in *; done.
  - destruct (is_ErrSkipDesc e); simpl; [apply IH|done].
Qed.

Lemma normal_handlers_frame fetcher platform ref :
  handler_frame (images_Handlers (normal_handlers fetcher platform ref)).
Proof.
  apply images_Handlers_frame. unfold normal_handlers.
  repeat (apply List.Forall_cons;
    [first [apply filterLayerBlobs_frame | apply ext_frame]|]).
  apply List.Forall_nil.
Qed.

Lemma gather_handlers_frame platform :
  handler_frame (images_Handlers (gather_handlers platform)).
Proof.
  apply images_Handlers_frame. unfold gather_handlers.
  repeat (apply List.Forall_cons;
    [first [apply filterLayerBlobs_frame | apply ext_frame]|]).
  apply List.Forall_nil.
Qed.
End Walk.

(** ** Layer reconciliation *)

Section Reconciliation.

Lemma annotate_fields desc diffID :
  ocispec.MediaType (annotate desc diffID) = ocispec.MediaType desc ∧
  ocispec.Digest (annotate desc diffID) = ocispec.Digest desc ∧
  ocispec.Size (annotate desc diffID) = ocispec.Size desc ∧
  ocispec.URLs (annotate desc diffID) = ocispec.URLs desc ∧
  ocispec.DescPlatform (annotate desc diffID) = ocispec.DescPlatform desc.
Proof. done. Qed.

(** Annotating twice with the same diff ID is annotating once. *)
Lemma annotate_idem desc diffID :
  annotate (annotate desc diffID) diffID = annotate desc diffID.
Proof.
  unfold annotate. simpl. by rewrite insert_insert_eq.
Qed.

(** The loop from index [k] on: the slots before [k] stay as they are,
    the others get the annotated layers of the manifest. *)
Lemma getLayers_loop_from n :
  ∀ k diffIDs manifestLayers layers,
    (k + n = length diffIDs)%nat →
    length manifestLayers = length diffIDs →
    length layers = length diffIDs →
    getLayers_loop (seq k n) diffIDs manifestLayers layers =
      Some (take k layers ++
            zip_with annotate (drop k manifestLayers) (drop k diffIDs)).
Proof.
  induction n as [|n IH]; intros k diffIDs manifestLayers layers Hk Hm Hl.
  - simpl. rewrite (drop_ge manifestLayers), (take_ge layers) by lia.
    by rewrite app_nil_r.
  - simpl.
    destruct (lookup_lt_is_Some_2 manifestLayers k) as [desc Hdesc];
      [lia|].
    destruct (lookup_lt_is_Some_2 diffIDs k) as [diffID HdiffID]; [lia|].
    rewrite Hdesc, HdiffID. rewrite bool_decide_true by lia.
    rewrite IH by (rewrite ?length_insert; lia).
    f_equal.
    rewrite (take_S_r _ _ (annotate desc diffID))
      by (apply list_lookup_insert_eq; lia).
    rewrite take_insert_ge by lia.
    rewrite (drop_S manifestLayers desc k Hdesc).
    rewrite (drop_S diffIDs diffID k HdiffID).
    simpl. by rewrite <- app_assoc.
Qed.

(** With as many diff IDs as layers the reconciliation returns, without
    a panic, the layers of the manifest annotated position by
    position. *)
Lemma annotateLayers_ok diffIDs manifestLayers :
  length diffIDs = length manifestLayers →
  annotateLayers diffIDs manifestLayers =
    Returns (Ok (zip_with annotate manifestLayers diffIDs)).
Proof.
  intros Hlen. unfold annotateLayers.
  rewrite bool_decide_false by (intros Hne; by apply Hne).
  by rewrite (getLayers_loop_from _ 0) by (rewrite ?length_replicate; lia).
Qed.

Lemma annotateLayers_mismatch diffIDs manifestLayers :
  length diffIDs ≠ length manifestLayers →
  annotateLayers diffIDs manifestLayers =
    Returns (Err (errors_Errorf
      "mismatched image rootfs and manifest layers %+v %+v"
      [ArgDigests diffIDs; ArgDescriptors manifestLayers])).
Proof. intros Hlen. unfold annotateLayers. by rewrite bool_decide_true. Qed.

(** The only successful return is the one of [annotateLayers_ok]. *)
Lemma annotateLayers_inv diffIDs manifestLayers layers :
  annotateLayers diffIDs manifestLayers = Returns (Ok layers) →
  length diffIDs = length manifestLayers ∧
  layers = zip_with annotate manifestLayers diffIDs.
Proof.
  intros Hret.
  destruct (decide (length diffIDs = length manifestLayers)) as [Hlen|Hlen].
  - rewrite (annotateLayers_ok _ _ Hlen) in Hret. by inversion Hret.
  - by rewrite (annotateLayers_mismatch _ _ Hlen) in Hret.
Qed.

Lemma annotateLayers_no_panic diffIDs manifestLayers msg :
  annotateLayers diffIDs manifestLayers ≠ Panics msg.
Proof.
  destruct (decide (length diffIDs = length manifestLayers)) as [Hlen|Hlen].
  - by rewrite (annotateLayers_ok _ _ Hlen).
  - by rewrite (annotateLayers_mismatch _ _ Hlen).
Qed.

Lemma annotateLayers_fuel diffIDs manifestLayers :
  annotateLayers diffIDs manifestLayers ≠ OutOfFuel.
Proof.
  destruct (decide (length diffIDs = length manifestLayers)) as [Hlen|Hlen].
  - by rewrite (annotateLayers_ok _ _ Hlen).
  - by rewrite (annotateLayers_mismatch _ _ Hlen).
Qed.

Lemma zip_with_annotate_idem manifestLayers :
  ∀ diffIDs,
    zip_with annotate (zip_with annotate manifestLayers diffIDs) diffIDs
    = zip_with annotate manifestLayers diffIDs.
Proof.
  induction manifestLayers as [|desc rest IH]; intros [|d ds]; simpl;
    try done.
  by rewrite annotate_idem, IH.
Qed.
End Reconciliation.

Section GetLayers.
Context `{Env}.

(** [getLayers] as one expression over the two reads it makes. *)
Lemma getLayers_unfold desc platform s :
  getLayers desc platform s =
    (let (rm, w1) := images_Manifest desc platform (world s) in
     let tr1 := trace s ++ [EvManifest desc platform rm] in
     match rm with
     | Err err =>
         (Returns (Err (errors_WithStack err)),
          mkState (puller s) (metadata s) w1 tr1)
     | Ok manifest =>
         let (rd, w2) := images_RootFS desc platform w1 in
         let tr2 := tr1 ++ [EvRootFS desc platform rd] in
         (match rd with
          | Err err =>
              Returns (Err (errors_Wrap err "failed to resolve rootfs"))
          | Ok diffIDs =>
              annotateLayers diffIDs (ocispec.Layers manifest)
          end,
          mkState (puller s) (metadata s) w2 tr2)
     end).
Proof.
  unfold getLayers, bind, call, ret.
  destruct (images_Manifest _ _ _) as [[m|e] w1]; simpl; [|done].
  by destruct (images_RootFS _ _ _) as [[ds|e] w2].
Qed.
End GetLayers.

(** ** From the resolution to the loop over the metadata *)

Section Orchestration.
Context `{Env}.

Lemma walked_refl s : walked s s.
Proof. repeat split; auto using trace_ext_refl. Qed.

Lemma walked_trans s1 s2 s3 : walked s1 s2 → walked s2 s3 → walked s1 s3.
Proof.
  intros (A1 & A2 & A3 & A4 & A5 & A6 & A7 & A8 & A9 & A10 & A11)
         (B1 & B2 & B3 & B4 & B5 & B6 & B7 & B8 & B9 & B10 & B11).
  repeat split; try congruence.
  - intros Hne. rewrite B9; [by apply A9|]. by rewrite A9.
  - auto.
  - eauto using trace_ext_trans.
Qed.

Lemma stepped_walked s s' : stepped s s' → walked s s'.
Proof.
  intros (Hp & Hm & Ht). unfold walked. rewrite Hp.
  repeat split; try done.
  revert Ht. apply trace_ext_weaken. by intros [].
Qed.

Lemma call_walked {A} (ev : A → Event) (o : World → A * World) s :
  (∀ a, is_walk_event (ev a) = true) → walked s (snd (call ev o s)).
Proof.
  intros Hev. pose proof (trace_ext_call is_walk_event ev o s Hev) as Ht.
  revert Ht. unfold call. destruct (o (world s)) as [a w]. simpl.
  intros Ht. repeat split; done.
Qed.

(** On the schema1 path the converted descriptor replaces [desc]. *)
Lemma walked_set_desc s s' d :
  ocispec.MediaType (Puller.desc (puller s))
    = images_MediaTypeDockerSchema1Manifest →
  walked s s' →
  walked s (mkState (Puller.set_desc d (puller s')) (metadata s')
              (world s') (trace s')).
Proof.
  intros Hschema1 (A1 & A2 & A3 & A4 & A5 & A6 & A7 & A8 & A9 & A10 & A11).
  repeat split; simpl; try done.
Qed.

(** The loop over the metadata: all entries are appended to
    [nonlayers], and [configDesc] is the last entry of a config media
    type, if there is one. *)
Lemma collect_fold (descs : list ocispec.Descriptor) :
  ∀ p,
    let p' := foldl collect_step p descs in
    Puller.Src p' = Puller.Src p ∧
    Puller.Platform p' = Puller.Platform p ∧
    Puller.resolveOnce p' = Puller.resolveOnce p ∧
    Puller.resolveErr p' = Puller.resolveErr p ∧
    Puller.desc p' = Puller.desc p ∧
    Puller.ref p' = Puller.ref p ∧
    Puller.layers p' = Puller.layers p ∧
    Puller.nonlayers p' = Puller.nonlayers p ++ descs ∧
    ((Puller.configDesc p' = Puller.configDesc p ∧
      Forall (fun d => ocispec.MediaType d ∉ configMediaTypes) descs) ∨
     (Puller.configDesc p' ∈ descs ∧
      ocispec.MediaType (Puller.configDesc p') ∈ configMediaTypes)).
Proof.
  induction descs as [|d descs IH]; intros p; simpl.
  { rewrite app_nil_r. repeat split; try done. by left. }
  destruct (IH (collect_step p d))
    as (I1 & I2 & I3 & I4 & I5 & I6 & I7 & I8 & I9).
  rewrite I1, I2, I3, I4, I5, I6, I7, I8. clear I1 I2 I3 I4 I5 I6 I7 I8.
  unfold collect_step in *. case_bool_decide as Hcfg; simpl in *.
  - repeat split; try done; [by rewrite <- app_assoc|].
    right. destruct I9 as [[-> _]|[Hin Hmt]]; split; try done.
    + apply elem_of_cons. by left.
    + apply elem_of_cons. by right.
  - repeat split; try done; [by rewrite <- app_assoc|].
    destruct I9 as [[-> Hall]|[Hin Hmt]]; [left|right]; split; try done.
    + by apply List.Forall_cons.
    + apply elem_of_cons. by right.
Qed.

(** [collect_and_reconcile] as one expression. *)
Lemma collect_and_reconcile_unfold platform s :
  collect_and_reconcile platform s =
    (let entries :=
       match metadata s with
       | Some m => range_order m (world s)
       | None => []
       end in
     let p1 := foldl collect_step (puller s) (entries.*2) in
     let s1 := mkState p1 (metadata s) (world s) (trace s) in
     let (ls, s2) := getLayers (Puller.desc p1) platform s1 in
     match ls with
     | OutOfFuel => (OutOfFuel, s2)
     | Panics msg => (Panics msg, s2)
     | Returns (Err err) =>
         (Returns (Err err),
          mkState (Puller.set_layers [] (puller s2)) (metadata s2)
                  (world s2) (trace s2))
     | Returns (Ok ls) =>
         let p2 := Puller.set_layers ls (puller s2) in
         (Returns (Ok (PulledManifests.mk
            (Puller.ref p2) (Puller.desc p2) (Puller.configDesc p2)
            (Puller.nonlayers p2) (solver.mkRemote ls))),
          mkState p2 (metadata s2) (world s2) (trace s2))
     end).
Proof.
  unfold collect_and_reconcile, collect_metadata, bind, get_metadata,
    get_world, modify_p, get_p, ret. simpl.
  destruct (getLayers _ _ _) as [[[ls|err]|msg|] s2]; done.
Qed.

Local Arguments images_Handlers : simpl never.
Local Arguments images_Dispatch : simpl never.

(** The walk ends in one of two ways: [PullManifests] gives up, or it
    goes on with the loop over the metadata. *)
Lemma walk_and_reconcile_cases fuel fetcher platform s :
  ∃ s2, walked s s2 ∧
    (walk_and_reconcile fuel fetcher platform s
       = collect_and_reconcile platform s2 ∨
     (snd (walk_and_reconcile fuel fetcher platform s) = s2 ∧
      stopped (fst (walk_and_reconcile fuel fetcher platform s)))).
Proof.
  unfold walk_and_reconcile, bind, get_p, ret.
  case_bool_decide as Hschema1; simpl.
  - (* the schema1 path *)
    set (h := images_Handlers [ext (H_schema1Converter fetcher)]).
    assert (Hh : handler_frame h).
    { apply images_Handlers_frame.
      apply List.Forall_cons; [apply ext_frame|apply List.Forall_nil]. }
    pose proof (images_Dispatch_frame fuel h [Puller.desc (puller s)] s Hh)
      as Hstep%stepped_walked.
    destruct (images_Dispatch fuel h [Puller.desc (puller s)] s)
      as [[[err|]|msg|] s1]; simpl in *.
    1, 3, 4: exists s1; split; [done|right; by split].
    unfold convert_and_gather, bind.
    pose proof (call_walked (EvConvert fetcher) (schema1_Convert fetcher) s1
                  (fun _ => eq_refl)) as Hconv.
    destruct (call (EvConvert fetcher) (schema1_Convert fetcher) s1)
      as [[d cerr] s1']; simpl in *.
    unfold modify_p. simpl.
    set (s1'' := mkState (Puller.set_desc d (puller s1')) (metadata s1')
                   (world s1') (trace s1')).
    assert (Hw : walked s s1'').
    { apply walked_set_desc; [done|]. by apply (walked_trans _ s1). }
    destruct cerr as [err|]; simpl.
    { exists s1''. split; [done|right; by split]. }
    pose proof (images_Dispatch_frame fuel _ [d] s1''
                  (gather_handlers_frame platform)) as Hstep2%stepped_walked.
    destruct (images_Dispatch fuel _ [d] s1'') as [[[err|]|msg|] s2];
      simpl in *.
    all: exists s2; split; [by apply (walked_trans _ s1'')|].
    2: by left.
    all: right; by split.
  - (* the normal path *)
    pose proof (call_walked (EvAppendDSL (Puller.ref (puller s)))
                  (docker_AppendDistributionSourceLabel
                     (Puller.ref (puller s))) s (fun _ => eq_refl)) as Hdsl.
    destruct (call (EvAppendDSL (Puller.ref (puller s))) _ s)
      as [[[]|err] s1]; simpl in *.
    2: { exists s1. split; [done|right; by split]. }
    pose proof (images_Dispatch_frame fuel _ [Puller.desc (puller s)] s1
                  (normal_handlers_frame fetcher platform
                     (Puller.ref (puller s)))) as Hstep%stepped_walked.
    destruct (images_Dispatch fuel _ [Puller.desc (puller s)] s1)
      as [[[err|]|msg|] s2]; simpl in *.
    all: exists s2; split; [by apply (walked_trans _ s1)|].
    2: by left.
    all: right; by split.
Qed.
(** [PullManifests] gives up somewhere before the loop over the
    metadata, or it gets there with a map at hand. *)
Lemma PullManifests_cases fuel s :
  let s1 := snd (resolve s) in
  ∃ s2, walked s1 s2 ∧
    ((fst (resolve s) = None ∧ is_Some (metadata s2) ∧
      PullManifests fuel s
        = collect_and_reconcile (Puller.Platform (puller s1)) s2) ∨
     (snd (PullManifests fuel s) = s2 ∧
      stopped (fst (PullManifests fuel s)))).
Proof.
  unfold PullManifests, bind. simpl.
  destruct (resolve s) as [[err|] s1]; simpl.
  { exists s1. split; [apply walked_refl|right; by split]. }
  unfold get_p, set_metadata. simpl.
  set (s1' := mkState (puller s1) (Some ∅) (world s1) (trace s1)).
  assert (Hw0 : walked s1 s1').
  { repeat split; simpl; try done.
    apply (trace_ext_same_trace _ _ s1); [done|apply trace_ext_refl]. }
  pose proof (call_walked (EvFetcher (Puller.ref (puller s1)))
                (Resolver_Fetcher (Puller.ref (puller s1))) s1'
                (fun _ => eq_refl)) as Hf.
  assert (Hmd : is_Some (metadata
            (snd (call (EvFetcher (Puller.ref (puller s1)))
                       (Resolver_Fetcher (Puller.ref (puller s1))) s1')))).
  { unfold call. destruct (Resolver_Fetcher _ _). simpl. by eexists. }
  destruct (call (EvFetcher (Puller.ref (puller s1))) _ s1')
    as [[fetcher|err] s1'']; simpl in *.
  2: { exists s1''. split; [by apply (walked_trans _ s1')|right; by split]. }
  destruct (walk_and_reconcile_cases fuel fetcher
              (Puller.Platform (puller s1)) s1'')
    as (s2 & Hw & Hcases).
  exists s2. split.
  { apply (walked_trans _ s1'); [done|]. by apply (walked_trans _ s1''). }
  destruct Hcases as [Heq|Hstop]; [left|by right].
  repeat split; [|done].
  destruct Hw as (_ & _ & _ & _ & _ & _ & _ & _ & _ & Hsome & _). auto.
Qed.

(** The loop over the metadata and the reconciliation, by what the two
    reads of the store return. *)
Lemma collect_and_reconcile_run platform s :
  let entries :=
    match metadata s with
    | Some m => range_order m (world s)
    | None => []
    end in
  let p1 := foldl collect_step (puller s) (entries.*2) in
  let d := Puller.desc (puller s) in
  let run := collect_and_reconcile platform s in
  ∃ rm w1, images_Manifest d platform (world s) = (rm, w1) ∧
    match rm with
    | Err err =>
        run = (Returns (Err (errors_WithStack err)),
               mkState (Puller.set_layers [] p1) (metadata s) w1
                 (trace s ++ [EvManifest d platform rm]))
    | Ok m =>
        ∃ rd w2, images_RootFS d platform w1 = (rd, w2) ∧
          let tr :=
            trace s ++ [EvManifest d platform rm; EvRootFS d platform rd] in
          match rd with
          | Err err =>
              run = (Returns (Err (errors_Wrap err
                                     "failed to resolve rootfs")),
                     mkState (Puller.set_layers [] p1) (metadata s) w2 tr)
          | Ok ds =>
              if decide (length ds = length (ocispec.Layers m))
              then
                let ls := zip_with annotate (ocispec.Layers m) ds in
                run = (Returns (Ok (PulledManifests.mk
                         (Puller.ref p1) d (Puller.configDesc p1)
                         (Puller.nonlayers p1) (solver.mkRemote ls))),
                       mkState (Puller.set_layers ls p1) (metadata s) w2 tr)
              else
                run = (Returns (Err (errors_Errorf
                         "mismatched image rootfs and manifest layers %+v %+v"
                         [ArgDigests ds;
                          ArgDescriptors (ocispec.Layers m)])),
                       mkState (Puller.set_layers [] p1) (metadata s) w2 tr)
          end
    end.
Proof.
  intros entries p1 d run. unfold run.
  assert (Hd : Puller.desc p1 = d).
  { unfold p1, d. by destruct (collect_fold (entries.*2) (puller s))
      as (_ & _ & _ & _ & -> & _). }
  rewrite collect_and_reconcile_unfold. cbv zeta.
  fold entries. fold p1. rewrite getLayers_unfold, Hd. simpl.
  destruct (images_Manifest d platform (world s)) as [[m|err] w1].
  2: { by exists (Err err), w1. }
  exists (Ok m), w1. split; [done|].
  destruct (images_RootFS d platform w1) as [[ds|err] w2].
  2: { exists (Err err), w2. split; [done|]. simpl.
       by rewrite <- app_assoc. }
  exists (Ok ds), w2. split; [done|]. simpl. rewrite <- app_assoc. simpl.
  destruct (decide (length ds = length (ocispec.Layers m))) as [Hlen|Hlen].
  - rewrite (annotateLayers_ok _ _ Hlen). simpl. by rewrite Hd.
  - by rewrite (annotateLayers_mismatch _ _ Hlen).
Qed.
(** The loop over the metadata and the reconciliation only set
    [nonlayers], [configDesc] and [layers], and only read the manifest
    and the diff IDs. *)
Lemma collect_and_reconcile_frame platform s :
  let s' := snd (collect_and_reconcile platform s) in
  Puller.resolveOnce (puller s') = Puller.resolveOnce (puller s) ∧
  Puller.resolveErr (puller s') = Puller.resolveErr (puller s) ∧
  Puller.ref (puller s') = Puller.ref (puller s) ∧
  Puller.Src (puller s') = Puller.Src (puller s) ∧
  Puller.Platform (puller s') = Puller.Platform (puller s) ∧
  Puller.desc (puller s') = Puller.desc (puller s) ∧
  metadata s' = metadata s ∧
  trace_ext is_reconcile_event s s'.
Proof.
  destruct (collect_and_reconcile_run platform s) as (rm & w1 & _ & Hrun).
  set (entries := match metadata s with
                  | Some m => range_order m (world s)
                  | None => []
                  end) in *.
  destruct (collect_fold (entries.*2) (puller s))
    as (F1 & F2 & F3 & F4 & F5 & F6 & _).
  destruct rm as [m|err].
  2: { rewrite Hrun. simpl. repeat split; try done. by eexists [_]. }
  destruct Hrun as (rd & w2 & _ & Hrun). destruct rd as [ds|err].
  2: { rewrite Hrun. simpl. repeat split; try done. by eexists [_; _]. }
  destruct (decide _); rewrite Hrun; simpl.
  all: repeat split; try done; by eexists [_; _].
Qed.







End Orchestration.

(** ** The resolver *)

Section ResolverClaims.
Context `{Env}.

(** A resolution does not touch what the pull will fill in. *)
Lemma resolve_keeps s :
  let s1 := snd (resolve s) in
  Puller.configDesc (puller s1) = Puller.configDesc (puller s) ∧
  Puller.layers (puller s1) = Puller.layers (puller s) ∧
  Puller.nonlayers (puller s1) = Puller.nonlayers (puller s).
Proof.
  unfold resolve, once_Do, resolve_body, tryLocalResolve, bind, get_p, ret,
    call, modify_p.
  destruct (Puller.resolveOnce (puller s)); simpl; [done|].
  case_bool_decide; simpl.
  { by destruct (Resolver_Resolve _ _) as [[[ref desc]|err] w]. }
  destruct (ContentStore_Info _ _) as [[size|e] w1]; simpl.
  2: by destruct (Resolver_Resolve _ _) as [[[ref desc]|err] w].
  destruct (ContentStore_ReaderAt _ _) as [[ra|e] w2]; simpl.
  2: by destruct (Resolver_Resolve _ _) as [[[ref desc]|err] w].
  destruct (imageutil_DetectManifestMediaType _ _) as [[mt|e] w3]; simpl.
  - done.
  - by destruct (Resolver_Resolve _ _) as [[[ref desc]|err] w].
Qed.

(** The local attempt succeeds exactly when the reference has a digest
    and the three reads of the store succeed one after the other; each
    of the four ways to fail is an error of [tryLocalResolve]. *)
Lemma tryLocalResolve_succeeds_iff s :
  let dgst := reference.Digest (Puller.Src (puller s)) in
  fst (tryLocalResolve s) = None ↔
  dgst ≠ "" ∧
  ∃ size w1 ra w2 mt w3,
    ContentStore_Info dgst (world s) = (Ok size, w1) ∧
    ContentStore_ReaderAt
      (ocispec.mkDescriptor "" dgst size [] None None) w1 = (Ok ra, w2) ∧
    imageutil_DetectManifestMediaType ra w2 = (Ok mt, w3).
Proof.
  unfold tryLocalResolve, bind, get_p, ret, call, modify_p. simpl.
  case_bool_decide as Hd; simpl.
  { split; [done|]. by intros [? _]. }
  destruct (ContentStore_Info _ _) as [[size|e] w1] eqn:Hinfo; simpl.
  2: { split; [done|]. by intros (_ & ? & ? & ? & ? & ? & ? & ? & _). }
  destruct (ContentStore_ReaderAt _ _) as [[ra|e] w2] eqn:Hra; simpl.
  2: { split; [done|].
       intros (_ & ? & ? & ? & ? & ? & ? & [= <- <-] & Hra' & _).
       by rewrite Hra in Hra'. }
  destruct (imageutil_DetectManifestMediaType _ _) as [[mt|e] w3] eqn:Hmt;
    simpl.
  - split; [|done]. intros _. split; [done|].
    by exists size, w1, ra, w2, mt, w3.
  - split; [done|].
    intros (_ & ? & ? & ? & ? & ? & ? & [= <- <-] & Hra' & Hmt').
    rewrite Hra in Hra'. injection Hra' as <- <-.
    by rewrite Hmt in Hmt'.
Qed.


(** C5: a reference with a digest whose blob the store holds, with a
    manifest media type that can be detected, is resolved locally: there
    is no error, the root descriptor has that digest, the size reported
    by the store and the detected media type, the ref is the reference as
    a string, and the only calls are the three reads of the store;
    [Resolver.Resolve] is not called, whatever it would answer. *)
Theorem resolve_local (s : State) size w1 ra w2 mt w3 :
  let src := Puller.Src (puller s) in
  let dgst := reference.Digest src in
  let probe := ocispec.mkDescriptor "" dgst size [] None None in
  Puller.resolveOnce (puller s) = false →
  Puller.resolveErr (puller s) = None →
  dgst ≠ "" →
  ContentStore_Info dgst (world s) = (Ok size, w1) →
  ContentStore_ReaderAt probe w1 = (Ok ra, w2) →
  imageutil_DetectManifestMediaType ra w2 = (Ok mt, w3) →
  let s' := snd (resolve s) in
  fst (resolve s) = None ∧
  Puller.resolveOnce (puller s') = true ∧
  Puller.desc (puller s') = ocispec.mkDescriptor mt dgst size [] None None ∧
  Puller.ref (puller s') = reference.String src ∧
  trace s' = trace s ++ [EvInfo dgst (Ok size); EvStoreReaderAt probe (Ok ra);
                         EvDetect ra (Ok mt)] ∧
  resolve_calls (trace s') = resolve_calls (trace s).
Proof.
  intros src dgst probe Hfresh Herr Hdgst Hinfo Hra Hmt.
  rewrite (resolve_first s Hfresh). cbv zeta.
  unfold resolve_body, tryLocalResolve, bind, get_p, ret, call, modify_p.
  fold src. fold dgst. rewrite bool_decide_false by done. simpl.
  rewrite Hinfo. simpl. fold probe. rewrite Hra. simpl. rewrite Hmt. simpl.
  repeat split; try done.
  - by rewrite <- !app_assoc.
  - rewrite !resolve_calls_app. unfold resolve_calls at 2 3 4. simpl. lia.
Qed.

(** C6: when the local attempt fails, for whatever reason, [resolve]
    asks the remote resolver, and its outcome is the answer of the
    resolver: the error of the resolver is returned and stored, or the
    ref and the descriptor of the resolver are stored and no error is
    returned.  The local error appears nowhere. *)
Theorem resolve_falls_back (s s1 : State) (local_err : error) r w' :
  let src := reference.String (Puller.Src (puller s)) in
  Puller.resolveOnce (puller s) = false →
  Puller.resolveErr (puller s) = None →
  tryLocalResolve s = (Some local_err, s1) →
  Resolver_Resolve src (world s1) = (r, w') →
  let s' := snd (resolve s) in
  trace s' = trace s1 ++ [EvResolve src r] ∧
  world s' = w' ∧
  Puller.resolveOnce (puller s') = true ∧
  match r with
  | Err err =>
      fst (resolve s) = Some err ∧
      Puller.resolveErr (puller s') = Some err
  | Ok (ref, desc) =>
      fst (resolve s) = None ∧
      Puller.resolveErr (puller s') = None ∧
      Puller.ref (puller s') = ref ∧
      Puller.desc (puller s') = desc
  end.
Proof.
  intros src Hfresh Herr Hlocal Hremote.
  rewrite (resolve_first s Hfresh). cbv zeta.
  destruct (tryLocalResolve_frame s) as (_ & Herr1 & Hsrc1 & _).
  rewrite Hlocal in Herr1, Hsrc1. simpl in Herr1, Hsrc1.
  unfold resolve_body, bind. rewrite Hlocal.
  unfold get_p, call, modify_p, ret. rewrite Hsrc1. fold src.
  rewrite Hremote. destruct r as [[ref desc]|err]; simpl.
  - repeat split; try done; congruence.
  - done.
Qed.
End ResolverClaims.

(** ** The lazy content provider *)

Section ProviderClaims.
Context `{Env}.

(** C10: [ReaderAt] first resolves the reference of the puller, and
    returns the stored error of the resolution if there is one.
    Otherwise it asks the resolver for a fetcher for the stored ref and
    returns what the reader over that fetcher returns for the descriptor;
    past the resolution these are its only two calls, so the content
    store is not read, whether it holds the blob or not, and on a puller
    that is already resolved it is not read at all. *)
Theorem ReaderAt_through_fetcher (desc : ocispec.Descriptor) (s : State) :
  let s1 := snd (resolve s) in
  let out := fst (ReaderAt desc s) in
  let s' := snd (ReaderAt desc s) in
  match fst (resolve s) with
  | Some err => out = Err err ∧ s' = s1
  | None =>
      let ref := Puller.ref (puller s1) in
      puller s' = puller s1 ∧
      match fst (Resolver_Fetcher ref (world s1)) with
      | Err err =>
          out = Err err ∧
          trace s' = trace s1 ++ [EvFetcher ref (Err err)]
      | Ok fetcher =>
          (out, world s') =
            contentutil_FromFetcher_ReaderAt fetcher desc
              (snd (Resolver_Fetcher ref (world s1))) ∧
          trace s' = trace s1 ++ [EvFetcher ref (Ok fetcher);
                                  EvFromFetcherReaderAt fetcher desc out]
      end
  end ∧
  (∃ evs, trace s' = trace s1 ++ evs ∧
          forallb (fun ev => negb (is_store_read ev)) evs = true) ∧
  (Puller.resolveOnce (puller s) = true → s1 = s).
Proof.
  intros s1 out s'. unfold out, s', s1, ReaderAt, bind.
  split; [|split].
  - destruct (resolve s) as [[err|] t]; simpl; [done|].
    unfold get_p, call, ret.
    destruct (Resolver_Fetcher _ _) as [[fetcher|err] w1]; simpl; [|done].
    destruct (contentutil_FromFetcher_ReaderAt _ _ _) as [r w2]; simpl.
    by rewrite <- app_assoc.
  - destruct (resolve s) as [[err|] t]; simpl.
    { exists []. by rewrite app_nil_r. }
    unfold get_p, call, ret.
    destruct (Resolver_Fetcher _ _) as [[fetcher|err] w1]; simpl.
    2: by eexists [_].
    destruct (contentutil_FromFetcher_ReaderAt _ _ _) as [r w2]; simpl.
    eexists [_; _]. by rewrite <- app_assoc.
  - intros Hdone. by rewrite (resolve_done s Hdone).
Qed.
End ProviderClaims.

(** ** The filter of layer blobs *)

Section FilterClaims.
Context `{Env}.

(** C3: on the normal path, a descriptor of a layer media type makes the
    filter return the skip signal with the state as it was: nothing is
    written to the map, the chain ends there, so that neither the fetch
    handler nor any later handler is called, and the walk goes on with
    the siblings without descending.  A descriptor of any other media
    type is written to the map under its digest, and the chain goes on
    with the fetch handler and the handlers after it. *)
Theorem filterLayerBlobs_skips_layers (desc : ocispec.Descriptor)
    (s : State) fetcher platform ref :
  let chain := images_Handlers (normal_handlers fetcher platform ref) in
  let later :=
    images_Handlers [ ext (H_FetchHandler fetcher);
                      ext (H_childrenLimited platform);
                      ext (H_dslHandler ref) ] in
  (ocispec.MediaType desc ∈ layerMediaTypes →
   filterLayerBlobs desc s = (Err images_ErrSkipDesc, s) ∧
   chain desc s = (Err images_ErrSkipDesc, s) ∧
   ∀ fuel rest,
     images_Dispatch (S fuel) chain (desc :: rest) s
     = images_Dispatch fuel chain rest s) ∧
  (ocispec.MediaType desc ∉ layerMediaTypes →
   ∀ m, metadata s = Some m →
     let s1 := mkState (puller s) (Some (<[ocispec.Digest desc := desc]> m))
                 (world s) (trace s) in
     filterLayerBlobs desc s = (Ok [], s1) ∧
     chain desc s = later desc s1).
Proof.
  intros chain later. split.
  - intros Hlayer.
    assert (Hf : filterLayerBlobs desc s = (Err images_ErrSkipDesc, s)).
    { unfold filterLayerBlobs. by rewrite bool_decide_true. }
    assert (Hc : chain desc s = (Err images_ErrSkipDesc, s)).
    { unfold chain, normal_handlers. simpl. unfold bind at 1.
      by rewrite Hf. }
    repeat split; try done.
    intros fuel rest. simpl. unfold bind at 1. by rewrite Hc.
  - intros Hother m Hm s1.
    assert (Hf : filterLayerBlobs desc s = (Ok [], s1)).
    { unfold filterLayerBlobs. rewrite bool_decide_false by done.
      unfold bind, get_metadata, set_metadata, ret. by rewrite Hm. }
    split; [done|].
    unfold chain, normal_handlers.
    change (images_Handlers (filterLayerBlobs :: ?l) desc s)
      with (bind (filterLayerBlobs desc)
              (fun r => match r with
                        | Err e => ret (Err e)
                        | Ok ch =>
                            bind (images_Handlers l desc)
                              (fun r' => match r' with
                                         | Err e => ret (Err e)
                                         | Ok ch' => ret (Ok (ch ++ ch'))
                                         end)
                        end) s).
    unfold bind at 1. rewrite Hf. unfold bind at 1. fold later.
    by destruct (later desc s1) as [[ch'|e] s2].
Qed.
End FilterClaims.

(** ** The reconciler *)

Section ReconcilerClaims.
Context `{Env}.

(** C9: reconciling layers that a reconciliation against the same diff
    IDs has returned gives these layers back, with the annotations they
    have: the annotation of position i is overwritten with the same i-th
    diff ID. *)
Theorem annotateLayers_idempotent (diffIDs : list digest.Digest)
    (manifestLayers layers : list ocispec.Descriptor) :
  annotateLayers diffIDs manifestLayers = Returns (Ok layers) →
  annotateLayers diffIDs layers = Returns (Ok layers) ∧
  ∀ desc platform (s : State) m w1 w2,
    images_Manifest desc platform (world s) = (Ok m, w1) →
    ocispec.Layers m = layers →
    images_RootFS desc platform w1 = (Ok diffIDs, w2) →
    fst (getLayers desc platform s) = Returns (Ok layers).
Proof.
  intros [Hlen ->]%annotateLayers_inv.
  assert (Hidem :
    annotateLayers diffIDs (zip_with annotate manifestLayers diffIDs)
    = Returns (Ok (zip_with annotate manifestLayers diffIDs))).
  { rewrite annotateLayers_ok.
    - by rewrite zip_with_annotate_idem.
    - rewrite length_zip_with. lia. }
  split; [done|].
  intros desc platform s m w1 w2 Hm Hlayers Hd.
  rewrite getLayers_unfold, Hm, Hd. simpl. by rewrite Hlayers.
Qed.

(** C2: when the reconciliation succeeds, the layers it returns are the
    layers of the manifest it read, as many and in the same order; the
    i-th one has the media type, digest, size, URLs and platform of the
    i-th layer of the manifest and an annotation map that is not nil,
    holds the i-th diff ID under the key of the uncompressed digest and
    agrees with the map of the manifest on every other key. *)
Theorem getLayers_annotates (desc : ocispec.Descriptor)
    (platform : ocispec.Platform) (s s' : State)
    (layers : list ocispec.Descriptor) :
  getLayers desc platform s = (Returns (Ok layers), s') →
  ∃ manifest diffIDs w1,
    images_Manifest desc platform (world s) = (Ok manifest, w1) ∧
    images_RootFS desc platform w1 = (Ok diffIDs, world s') ∧
    length layers = length (ocispec.Layers manifest) ∧
    length layers = length diffIDs ∧
    ∀ i l,
      layers !! i = Some l →
      ∃ ml d a,
        ocispec.Layers manifest !! i = Some ml ∧
        diffIDs !! i = Some d ∧
        ocispec.MediaType l = ocispec.MediaType ml ∧
        ocispec.Digest l = ocispec.Digest ml ∧
        ocispec.Size l = ocispec.Size ml ∧
        ocispec.URLs l = ocispec.URLs ml ∧
        ocispec.DescPlatform l = ocispec.DescPlatform ml ∧
        ocispec.Annotations l = Some a ∧
        a !! "containerd.io/uncompressed" = Some (digest.String d) ∧
        ∀ k, k ≠ "containerd.io/uncompressed" →
             a !! k = default ∅ (ocispec.Annotations ml) !! k.
Proof.
  rewrite getLayers_unfold.
  destruct (images_Manifest desc platform (world s)) as [[m|err] w1]
    eqn:Hm; [|done].
  destruct (images_RootFS desc platform w1) as [[ds|err] w2] eqn:Hds;
    [|done].
  simpl. intros [= Hann <-]. apply annotateLayers_inv in Hann as [Hlen ->].
  exists m, ds, w1. simpl. repeat split; try done.
  - rewrite length_zip_with. lia.
  - rewrite length_zip_with. lia.
  - intros i l (ml & d & -> & Hml & Hd)%lookup_zip_with_Some.
    eexists ml, d, _. repeat split; try done.
    + apply lookup_insert_eq.
    + intros k Hk. rewrite lookup_insert_ne by done.
      by destruct (ocispec.Annotations ml).
Qed.
End ReconcilerClaims.

(** ** The orchestrator *)

Section OrchestratorClaims.
Context `{Env}.

(** A reconciliation event of a run is one of the reconciliation. *)
Lemma reconcile_event_in (evsA evsB evsC : list Event) ev :
  forallb is_resolution_event evsA = true →
  forallb is_walk_event evsB = true →
  is_reconcile_event ev = true →
  ev ∈ evsA ++ evsB ++ evsC → ev ∈ evsC.
Proof.
  rewrite !forallb_forall. intros HA HB Hev.
  rewrite !elem_of_app. intros [Hin|[Hin|Hin]]; [| |done].
  - apply list_elem_of_In, HA in Hin. by destruct ev.
  - apply list_elem_of_In, HB in Hin. by destruct ev.
Qed.

(** Everything about a run of [PullManifests] that returns a result:
    the resolution left no error, a fetcher was obtained, the walk went
    through and left a map, and the reconciliation read a manifest and
    as many diff IDs as it has layers. *)
Lemma PullManifests_success fuel s r s' :
  PullManifests fuel s = (Returns (Ok r), s') →
  let s1 := snd (resolve s) in
  let pl := Puller.Platform (puller s1) in
  ∃ s2 md m ds w1 w2 fetcher evsW,
    fst (resolve s) = None ∧
    walked s1 s2 ∧
    trace s2 =
      trace s1 ++ EvFetcher (Puller.ref (puller s1)) (Ok fetcher) :: evsW ∧
    forallb is_walk_event evsW = true ∧
    metadata s2 = Some md ∧
    let p1 :=
      foldl collect_step (puller s2) ((range_order md (world s2)).*2) in
    let d := Puller.desc (puller s2) in
    let ls := zip_with annotate (ocispec.Layers m) ds in
    images_Manifest d pl (world s2) = (Ok m, w1) ∧
    images_RootFS d pl w1 = (Ok ds, w2) ∧
    length ds = length (ocispec.Layers m) ∧
    r = PulledManifests.mk (Puller.ref p1) d (Puller.configDesc p1)
          (Puller.nonlayers p1) (solver.mkRemote ls) ∧
    s' = mkState (Puller.set_layers ls p1) (Some md) w2
           (trace s2 ++ [EvManifest d pl (Ok m); EvRootFS d pl (Ok ds)]).
Proof.
  unfold PullManifests, bind. simpl.
  destruct (resolve s) as [[err|] s1]; simpl; [done|].
  unfold get_p, set_metadata, call. simpl.
  destruct (Resolver_Fetcher _ _) as [[fetcher|err] wf]; simpl; [|done].
  set (s1'' := mkState (puller s1) (Some ∅) wf
                 (trace s1 ++ [EvFetcher (Puller.ref (puller s1))
                                 (Ok fetcher)])).
  destruct (walk_and_reconcile_cases fuel fetcher
              (Puller.Platform (puller s1)) s1'')
    as (s2 & Hw & [Heq|[_ Hstop]]).
  2: { intros Hrun. by rewrite Hrun in Hstop. }
  rewrite Heq. clear Heq. intros Hrun.
  assert (Hmd : is_Some (metadata s2)).
  { destruct Hw as (_ & _ & _ & _ & _ & _ & _ & _ & _ & Hsome & _).
    apply Hsome. by eexists. }
  destruct Hmd as [md Hmd].
  assert (Hw1 : walked s1 s2).
  { apply (walked_trans _ s1''); [|done].
    repeat split; simpl; try done. by eexists [_]. }
  assert (Htr : ∃ evsW,
    trace s2 = trace s1 ++
      EvFetcher (Puller.ref (puller s1)) (Ok fetcher) :: evsW ∧
    forallb is_walk_event evsW = true).
  { destruct Hw as (_ & _ & _ & _ & _ & _ & _ & _ & _ & _ & evsW & Ht & HF).
    exists evsW. split; [|done]. rewrite Ht. simpl.
    by rewrite <- app_assoc. }
  destruct Htr as (evsW & Htr & HevsW).
  destruct (collect_and_reconcile_run (Puller.Platform (puller s1)) s2)
    as (rm & w1 & Hm & Hcase).
  rewrite Hmd in Hcase. rewrite Hrun in Hcase.
  destruct rm as [m|err]; [|done].
  destruct Hcase as (rd & w2 & Hd & Hcase).
  destruct rd as [ds|err]; [|done].
  destruct (decide (length ds = length (ocispec.Layers m))) as [Hlen|Hlen];
    [|done].
  injection Hcase as Hr Hs'.
  exists s2, md, m, ds, w1, w2, fetcher, evsW.
  repeat (split; [done|]). done.
Qed.

(** C1: when the reconciliation of a pull reads a manifest and diff IDs
    of different lengths, [getLayers] returns the mismatch error, which
    carries both sequences, and so does [PullManifests]; no layer list
    is returned and none is left in the puller. *)
Theorem PullManifests_mismatch_fails :
  (∀ (desc : ocispec.Descriptor) platform (s : State) m w1 ds w2,
     images_Manifest desc platform (world s) = (Ok m, w1) →
     images_RootFS desc platform w1 = (Ok ds, w2) →
     length ds ≠ length (ocispec.Layers m) →
     fst (getLayers desc platform s) =
       Returns (Err (errors_Errorf
         "mismatched image rootfs and manifest layers %+v %+v"
         [ArgDigests ds; ArgDescriptors (ocispec.Layers m)]))) ∧
  (∀ fuel (s : State) evs d platform m ds,
     let out := fst (PullManifests fuel s) in
     let s' := snd (PullManifests fuel s) in
     trace s' = trace s ++ evs →
     EvManifest d platform (Ok m) ∈ evs →
     EvRootFS d platform (Ok ds) ∈ evs →
     length ds ≠ length (ocispec.Layers m) →
     out = Returns (Err (errors_Errorf
             "mismatched image rootfs and manifest layers %+v %+v"
             [ArgDigests ds; ArgDescriptors (ocispec.Layers m)])) ∧
     Puller.layers (puller s') = []).
Proof.
  split.
  { intros desc platform s m w1 ds w2 Hm Hds Hlen.
    rewrite getLayers_unfold, Hm, Hds. simpl.
    by apply annotateLayers_mismatch. }
  intros fuel s evs d platform m ds out s' Htr HinM HinD Hlen.
  unfold out, s' in *. clear out s'.
  destruct (resolve_post s) as (_ & _ & _ & _ & _ & (evsA & HtA & HA) & _).
  destruct (PullManifests_cases fuel s) as (s2 & Hw & Hcases).
  destruct Hw as (_ & _ & _ & _ & _ & _ & _ & _ & _ & _ & evsB & HtB & HB).
  destruct Hcases as [(_ & _ & Hrun)|[Hs2 _]].
  2: { exfalso. rewrite Hs2, HtB, HtA, <- app_assoc in Htr.
       apply app_inv_head in Htr. subst evs.
       assert (Hin : EvManifest d platform (Ok m) ∈ evsA ++ evsB ++ [])
         by by rewrite app_nil_r.
       apply reconcile_event_in in Hin; try done.
       by apply elem_of_nil in Hin. }
  destruct (collect_and_reconcile_run
              (Puller.Platform (puller (snd (resolve s)))) s2)
    as (rm & w1 & _ & Hcase).
  rewrite <- Hrun in Hcase. clear Hrun.
  assert (Hevs : ∀ evsC,
    trace (snd (PullManifests fuel s)) = trace s2 ++ evsC →
    EvManifest d platform (Ok m) ∈ evsC ∧
    EvRootFS d platform (Ok ds) ∈ evsC).
  { intros evsC HtC. rewrite HtC, HtB, HtA, <- !app_assoc in Htr.
    apply app_inv_head in Htr. subst evs.
    split; eapply reconcile_event_in; eauto. }
  destruct rm as [m'|err].
  2: { rewrite Hcase in Hevs. destruct (Hevs _ eq_refl) as [Hin _].
       apply list_elem_of_singleton in Hin. done. }
  destruct Hcase as (rd & w2 & _ & Hcase). destruct rd as [ds'|err].
  2: { rewrite Hcase in Hevs. destruct (Hevs _ eq_refl) as [_ Hin].
       rewrite !elem_of_cons in Hin.
       destruct Hin as [?|[?|Hin]]; try done. by apply elem_of_nil in Hin. }
  assert (Hsame : m' = m ∧ ds' = ds).
  { destruct (decide _); rewrite Hcase in Hevs;
      destruct (Hevs _ eq_refl) as [Hin1 Hin2];
      rewrite !elem_of_cons in Hin1, Hin2;
      destruct Hin1 as [[= _ _ ->]|[?|Hin1]]; try done;
      destruct Hin2 as [?|[[= _ _ ->]|Hin2]]; try done;
      try (by apply elem_of_nil in Hin1); by apply elem_of_nil in Hin2. }
  destruct Hsame as [-> ->].
  destruct (decide (length ds = length (ocispec.Layers m))); [done|].
  by rewrite Hcase.
Qed.
(** C7, as the code has it: after the walk, [PullManifests] appends
    every entry of the metadata map, each once, to the non-layer
    descriptors of the puller, and in the same loop takes as config
    descriptor an entry of a config media type; if there is none the
    config descriptor stays what it was.  The config descriptor taken
    from the map is therefore one of the non-layer descriptors
    returned. *)
Theorem PullManifests_nonlayers_hold_config fuel (s s' : State) r :
  PullManifests fuel s = (Returns (Ok r), s') →
  ∃ md descs,
    metadata s' = Some md ∧
    descs ≡ₚ (map_to_list md).*2 ∧
    PulledManifests.Nonlayers r = Puller.nonlayers (puller s) ++ descs ∧
    ((PulledManifests.ConfigDesc r = Puller.configDesc (puller s) ∧
      Forall (fun d => ocispec.MediaType d ∉ configMediaTypes) descs) ∨
     (PulledManifests.ConfigDesc r ∈ descs ∧
      PulledManifests.ConfigDesc r ∈ PulledManifests.Nonlayers r ∧
      ocispec.MediaType (PulledManifests.ConfigDesc r)
        ∈ configMediaTypes)).
Proof.
  intros Hrun. apply PullManifests_success in Hrun.
  destruct Hrun as (s2 & md & m & ds & w1 & w2 & fetcher & evsW & _ & Hw &
                    _ & _ & Hmd & _ & _ & _ & -> & ->).
  exists md, ((range_order md (world s2)).*2). simpl.
  split; [done|]. split.
  { apply fmap_Permutation, range_order_perm. }
  destruct (resolve_keeps s) as (Kc & _ & Kn).
  destruct Hw as (_ & _ & _ & _ & _ & Wc & _ & Wn & _).
  destruct (collect_fold ((range_order md (world s2)).*2) (puller s2))
    as (_ & _ & _ & _ & _ & _ & _ & Fn & Fc).
  rewrite Fn, Wn, Kn. split; [done|].
  destruct Fc as [[-> Hall]|[Hin Hmt]]; [left|right].
  - split; [congruence|done].
  - repeat split; try done. apply elem_of_app. by right.
Qed.

(** After a pull that returned a result the puller is resolved, without
    an error, and holds what was returned. *)
Lemma PullManifests_leaves_resolved fuel (s s' : State) r :
  PullManifests fuel s = (Returns (Ok r), s') →
  Puller.resolveOnce (puller s') = true ∧
  Puller.resolveErr (puller s') = None ∧
  Puller.ref (puller s') = PulledManifests.Ref r ∧
  Puller.desc (puller s') = PulledManifests.MainManifestDesc r ∧
  Puller.layers (puller s')
    = solver.Descriptors (PulledManifests.Remote r) ∧
  Puller.nonlayers (puller s') = PulledManifests.Nonlayers r ∧
  Puller.configDesc (puller s') = PulledManifests.ConfigDesc r ∧
  Puller.Platform (puller s') = Puller.Platform (puller s).
Proof.
  intros Hrun. apply PullManifests_success in Hrun.
  destruct Hrun as (s2 & md & m & ds & w1 & w2 & fetcher & evsW & Hnone & Hw &
                    _ & _ & Hmd & _ & _ & _ & -> & ->).
  destruct (resolve_post s) as (He & Hdone & _ & Hpl & _).
  destruct Hw as (_ & W2 & W3 & W4 & _).
  destruct (collect_fold ((range_order md (world s2)).*2) (puller s2))
    as (_ & F2 & F3 & F4 & F5 & _).
  simpl. rewrite F2, F3, F4, F5, W2, W3, W4, Hdone, Hpl, <- He, Hnone.
  done.
Qed.


(** The layers of a result of [PullManifests] all carry the annotation
    of the uncompressed digest. *)
Lemma PullManifests_layers_annotated fuel (s s' : State) r l :
  PullManifests fuel s = (Returns (Ok r), s') →
  l ∈ solver.Descriptors (PulledManifests.Remote r) →
  ∃ a, ocispec.Annotations l = Some a ∧
       is_Some (a !! "containerd.io/uncompressed").
Proof.
  intros Hrun. apply PullManifests_success in Hrun.
  destruct Hrun as (s2 & md & m & ds & w1 & w2 & fetcher & evsW & _ & _ &
                    _ & _ & _ & _ & _ & _ & -> & _).
  simpl. intros (i & Hi)%list_elem_of_lookup.
  apply lookup_zip_with_Some in Hi as (ml & d & -> & _ & _).
  eexists. split; [done|]. rewrite lookup_insert_eq. by eexists.
Qed.
End OrchestratorClaims.

(** ** The model at work on the small registry *)

Module on_the_registry.
Import demo demo_runs.

(** A run is its result and the state it leaves. *)
Lemma pair_of_fst {A B} (x : A * B) (a : A) : fst x = a → x = (a, snd x).
Proof. intros <-. by destruct x. Qed.

(** The trace of a run that starts with an empty trace. *)
Lemma from_empty_trace {A} (l : list A) : l = [] ++ l.
Proof. reflexivity. Qed.

Example pull_by_tag : fst (@PullManifests up 10 s0) = Returns (Ok pulled).
Proof. reflexivity. Qed.

Example pull_by_tag_again :
  fst (@PullManifests up 10 s1) = Returns (Ok pulled_again).
Proof. reflexivity. Qed.

Example pull_out_of_fuel : fst (@PullManifests up 3 s0) = OutOfFuel.
Proof. reflexivity. Qed.

Example pull_broken :
  fst (@PullManifests broken 10 (start broken by_tag cold))
  = Returns (Err mismatch).
Proof. reflexivity. Qed.

Example resolve_warm_registry_down :
  fst (@resolve down (start down by_digest warm)) = None.
Proof. reflexivity. Qed.

Example resolve_cold_registry_down :
  fst (@resolve down (start down by_digest cold))
  = Some (external_error "registry unreachable").
Proof. reflexivity. Qed.

Example read_layer_of_warm_store :
  fst (@ReaderAt up layer1 (start up by_digest {[ "sha256:layer1" ]}))
  = Ok "sha256:layer1".
Proof. reflexivity. Qed.

(** C5 at work: the store holds the manifest and the registry is down. *)
Lemma resolve_local_witness :
  fst (@resolve down (start down by_digest warm)) = None ∧
  Puller.desc (puller (snd (@resolve down (start down by_digest warm))))
  = ocispec.mkDescriptor (ocispec.MediaType manifestDesc)
      "sha256:manifest" 7%Z [] None None.
Proof.
  destruct (@resolve_local down (start down by_digest warm) 7%Z warm
              "sha256:manifest" warm (ocispec.MediaType manifestDesc) warm)
    as (H1 & _ & H3 & _);
    [reflexivity|reflexivity|discriminate|reflexivity|reflexivity
    |reflexivity|].
  split; assumption.
Defined.

(** C6 at work: a reference by tag has no digest. *)
Lemma resolve_falls_back_witness :
  fst (@resolve up s0) = None ∧
  Puller.desc (puller (snd (@resolve up s0))) = manifestDesc.
Proof.
  destruct (@resolve_falls_back up s0 s0 (errors_New "empty digest")
              (Ok ("docker.io/library/busybox:latest", manifestDesc)) cold)
    as (_ & _ & _ & H1 & _ & _ & H4);
    [reflexivity|reflexivity|reflexivity|reflexivity|].
  split; assumption.
Defined.

(** C9 at work. *)
Lemma annotateLayers_idempotent_witness :
  annotateLayers diffIDs2 [annotated1; annotated2]
  = Returns (Ok [annotated1; annotated2]).
Proof.
  apply (@annotateLayers_idempotent up diffIDs2 [layer1; layer2]).
  reflexivity.
Defined.

(** C2 at work. *)
Lemma getLayers_annotates_witness :
  ∃ manifest,
    length [annotated1; annotated2] = length (ocispec.Layers manifest).
Proof.
  destruct (@getLayers_annotates up manifestDesc linux s0
              (snd (@getLayers up manifestDesc linux s0))
              [annotated1; annotated2])
    as (m & ds & w1 & _ & _ & Hlen & _).
  - apply pair_of_fst. reflexivity.
  - exists m. exact Hlen.
Defined.

(** C3 at work: a layer and the manifest. *)
Lemma filterLayerBlobs_skips_layers_witness :
  @filterLayerBlobs up layer1 s0 = (Err images_ErrSkipDesc, s0) ∧
  fst (@filterLayerBlobs up manifestDesc
         (@mkState up (Puller.new by_tag linux) (Some ∅) cold []))
  = Ok [].
Proof.
  split.
  - destruct (@filterLayerBlobs_skips_layers up layer1 s0
                "fetcher" linux "ref") as [Hlayer _].
    apply Hlayer.
    apply (bool_decide_eq_true_1
             (ocispec.MediaType layer1 ∈ @layerMediaTypes up)).
    reflexivity.
  - destruct (@filterLayerBlobs_skips_layers up manifestDesc
                (@mkState up (Puller.new by_tag linux) (Some ∅) cold [])
                "fetcher" linux "ref") as [_ Hother].
    assert (Hmt : ocispec.MediaType manifestDesc ∉ @layerMediaTypes up).
    { apply (bool_decide_eq_false_1
               (ocispec.MediaType manifestDesc ∈ @layerMediaTypes up)).
      reflexivity. }
    destruct (Hother Hmt ∅ eq_refl) as [Hf _]. rewrite Hf. reflexivity.
Defined.

(** C1 at work: three diff IDs for two layers. *)
Lemma PullManifests_mismatch_fails_witness :
  fst (@PullManifests broken 10 (start broken by_tag cold))
  = Returns (Err mismatch) ∧
  Puller.layers
    (puller (snd (@PullManifests broken 10 (start broken by_tag cold))))
  = [].
Proof.
  destruct (@PullManifests_mismatch_fails broken) as [_ Hpull].
  apply (Hpull 10%nat (start broken by_tag cold)
           (trace (snd (@PullManifests broken 10
                          (start broken by_tag cold))))
           manifestDesc linux manifest diffIDs3).
  - apply from_empty_trace.
  - apply (list_elem_of_lookup_2 _ 9). vm_compute. reflexivity.
  - apply (list_elem_of_lookup_2 _ 10). vm_compute. reflexivity.
  - discriminate.
Defined.

(** C7, where the claim fails: the config descriptor of the first pull
    is the first of its non-layer descriptors. *)
Lemma config_is_among_nonlayers :
  ¬ (∀ (E : Env) fuel (s s' : @State E) r,
       @PullManifests E fuel s = (Returns (Ok r), s') →
       PulledManifests.ConfigDesc r ∉ PulledManifests.Nonlayers r).
Proof.
  intros Hclaim. apply (Hclaim up 10%nat s0 s1 pulled).
  - apply (pair_of_fst (@PullManifests up 10 s0)). reflexivity.
  - apply list_elem_of_here.
Qed.

(** C7 as amended, at work. *)
Lemma PullManifests_nonlayers_hold_config_witness :
  ∃ md descs,
    @metadata up s1 = Some md ∧
    descs ≡ₚ (map_to_list md).*2 ∧
    PulledManifests.Nonlayers pulled = [] ++ descs.
Proof.
  destruct (@PullManifests_nonlayers_hold_config up 10 s0 s1 pulled)
    as (md & descs & Hmd & Hperm & Hnon & _).
  - apply (pair_of_fst (@PullManifests up 10 s0)). reflexivity.
  - exists md, descs. repeat split; assumption.
Defined.


End on_the_registry.

(** * More on the same code *)

(** ** Relations kept by the walk *)

Section WalkInvariant.
Context `{Env}.
Variable I : State → State → Prop.
Hypothesis I_refl : ∀ s, I s s.
Hypothesis I_trans : ∀ s1 s2 s3, I s1 s2 → I s2 s3 → I s1 s3.

Lemma images_Handlers_keeps handlers :
  Forall (handler_keeps I) handlers →
  handler_keeps I (images_Handlers handlers).
Proof.
  induction 1 as [|h rest Hh Hrest IH]; intros desc s; simpl.
  { apply I_refl. }
  unfold bind. specialize (Hh desc s).
  destruct (h desc s) as [[ch|e] s1]; simpl in *; [|done].
  specialize (IH desc s1).
  destruct (images_Handlers rest desc s1) as [[ch'|e] s2]; simpl in *.
  all: by apply (I_trans _ s1).
Qed.

Lemma images_Dispatch_keeps fuel handler descs s :
  handler_keeps I handler →
  I s (snd (images_Dispatch fuel handler descs s)).
Proof.
  intros Hh. revert descs s.
  induction fuel as [|fuel IH]; intros descs s; simpl.
  { apply I_refl. }
  destruct descs as [|desc rest]; [apply I_refl|].
  unfold bind. specialize (Hh desc s).
  destruct (handler desc s) as [[children|e] s1]; simpl in *.
  - pose proof (IH children s1) as Hsub.
    destruct (images_Dispatch fuel handler children s1)
      as [[[err|]|msg|] s2]; simpl in *.
    2: apply (I_trans _ s1); [done|];
       apply (I_trans _ s2); [done|apply IH].
    all: by apply (I_trans _ s1).
  - destruct (is_ErrSkipDesc e); simpl; [|done].
    apply (I_trans _ s1); [done|apply IH].
Qed.

Local Arguments images_Handlers : simpl never.
Local Arguments images_Dispatch : simpl never.

(** The walk of [PullManifests] on the normal path, as one expression. *)
Lemma walk_normal fuel fetcher platform s :
  ocispec.MediaType (Puller.desc (puller s))
    ≠ images_MediaTypeDockerSchema1Manifest →
  walk_and_reconcile fuel fetcher platform s =
    (let ref := Puller.ref (puller s) in
     let (dsl, s1) :=
       call (EvAppendDSL ref) (docker_AppendDistributionSourceLabel ref) s in
     match dsl with
     | Err err => (Returns (Err err), s1)
     | Ok _ =>
         let (w, s2) :=
           images_Dispatch fuel
             (images_Handlers (normal_handlers fetcher platform ref))
             [Puller.desc (puller s)] s1 in
         match w with
         | OutOfFuel => (OutOfFuel, s2)
         | Panics msg => (Panics msg, s2)
         | Returns (Some err) => (Returns (Err err), s2)
         | Returns None => collect_and_reconcile platform s2
         end
     end).
Proof.
  intros Hne. unfold walk_and_reconcile, bind, get_p, ret.
  rewrite bool_decide_false by done. simpl.
  destruct (call _ _ s) as [[[]|err] s1]; simpl; [|done].
  by destruct (images_Dispatch _ _ _ s1) as [[[err|]|msg|] s2].
Qed.

(** The walk of [PullManifests] on the schema1 path, as one expression. *)
Lemma walk_schema1 fuel fetcher platform s :
  ocispec.MediaType (Puller.desc (puller s))
    = images_MediaTypeDockerSchema1Manifest →
  walk_and_reconcile fuel fetcher platform s =
    (let (w, s1) :=
       images_Dispatch fuel
         (images_Handlers [ext (H_schema1Converter fetcher)])
         [Puller.desc (puller s)] s in
     match w with
     | OutOfFuel => (OutOfFuel, s1)
     | Panics msg => (Panics msg, s1)
     | Returns (Some err) => (Returns (Err err), s1)
     | Returns None =>
         let (c, s2) :=
           call (EvConvert fetcher) (schema1_Convert fetcher) s1 in
         let s3 := with_desc (fst c) s2 in
         match snd c with
         | Some err => (Returns (Err err), s3)
         | None =>
             let (w2, s4) :=
               images_Dispatch fuel
                 (images_Handlers (gather_handlers platform)) [fst c] s3 in
             match w2 with
             | OutOfFuel => (OutOfFuel, s4)
             | Panics msg => (Panics msg, s4)
             | Returns (Some err) => (Returns (Err err), s4)
             | Returns None => collect_and_reconcile platform s4
             end
         end
     end).
Proof.
  intros Heq. unfold walk_and_reconcile, bind, get_p, ret.
  rewrite bool_decide_true by done. simpl.
  destruct (images_Dispatch _ _ _ s) as [[[err|]|msg|] s1]; simpl; try done.
  unfold convert_and_gather, bind, modify_p.
  destruct (call _ _ s1) as [[d cerr] s2]; simpl.
  destruct cerr as [err|]; simpl; [done|].
  unfold with_desc.
  by destruct (images_Dispatch _ _ _ _) as [[[err|]|msg|] s4].
Qed.

(** [PullManifests] as its resolution, the request for a fetcher and the
    rest. *)
Lemma PullManifests_unfold fuel s :
  PullManifests fuel s =
    (let (e, s1) := resolve s in
     match e with
     | Some err => (Returns (Err err), s1)
     | None =>
         let ref := Puller.ref (puller s1) in
         let (f, s1') :=
           call (EvFetcher ref) (Resolver_Fetcher ref)
             (with_new_metadata s1) in
         match f with
         | Err err => (Returns (Err err), s1')
         | Ok fetcher =>
             walk_and_reconcile fuel fetcher (Puller.Platform (puller s1)) s1'
         end
     end).
Proof.
  unfold PullManifests, bind.
  destruct (resolve s) as [[err|] s1]; simpl; [done|].
  unfold get_p, set_metadata, with_new_metadata. simpl.
  by destruct (call _ _ _) as [[fetcher|err] s1'].
Qed.

(** A relation kept by every step of the walk of a path holds between the
    start of the walk and the state in which it gives up or goes on with
    the loop over the metadata. *)
Lemma walk_and_reconcile_keeps fuel fetcher platform s :
  (ocispec.MediaType (Puller.desc (puller s))
     ≠ images_MediaTypeDockerSchema1Manifest →
   (∀ t, I t (snd (call (EvAppendDSL (Puller.ref (puller s)))
                     (docker_AppendDistributionSourceLabel
                        (Puller.ref (puller s))) t))) ∧
   handler_keeps I
     (images_Handlers
        (normal_handlers fetcher platform (Puller.ref (puller s))))) →
  (ocispec.MediaType (Puller.desc (puller s))
     = images_MediaTypeDockerSchema1Manifest →
   handler_keeps I (images_Handlers [ext (H_schema1Converter fetcher)]) ∧
   (∀ t, I t (snd (call (EvConvert fetcher) (schema1_Convert fetcher) t))) ∧
   (∀ d t, I t (with_desc d t)) ∧
   handler_keeps I (images_Handlers (gather_handlers platform))) →
  ∃ s2, I s s2 ∧
    (walk_and_reconcile fuel fetcher platform s
       = collect_and_reconcile platform s2 ∨
     (snd (walk_and_reconcile fuel fetcher platform s) = s2 ∧
      stopped (fst (walk_and_reconcile fuel fetcher platform s)))).
Proof.
  intros Hnormal Hschema1.
  destruct (decide (ocispec.MediaType (Puller.desc (puller s))
                    = images_MediaTypeDockerSchema1Manifest)) as [Heq|Hne].
  - rewrite (walk_schema1 _ _ _ _ Heq).
    destruct (Hschema1 Heq) as (Hconv & Hcall & Hset & Hgather).
    pose proof (images_Dispatch_keeps fuel _ [Puller.desc (puller s)] s Hconv)
      as H1.
    destruct (images_Dispatch fuel _ [Puller.desc (puller s)] s)
      as [[[err|]|msg|] s1]; simpl in *.
    1, 3, 4: exists s1; split; [done|right; by split].
    pose proof (Hcall s1) as H2.
    destruct (call (EvConvert fetcher) (schema1_Convert fetcher) s1)
      as [[d cerr] s2]; simpl in *.
    assert (H3 : I s (with_desc d s2)).
    { apply (I_trans _ s1); [done|].
      apply (I_trans _ s2); [done|]. apply Hset. }
    destruct cerr as [err|]; simpl.
    { exists (with_desc d s2). split; [done|right; by split]. }
    pose proof (images_Dispatch_keeps fuel _ [d] (with_desc d s2) Hgather)
      as H4.
    destruct (images_Dispatch fuel _ [d] (with_desc d s2))
      as [[[err|]|msg|] s4]; simpl in *.
    all: exists s4; split; [by apply (I_trans _ (with_desc d s2))|].
    2: by left.
    all: right; by split.
  - rewrite (walk_normal _ _ _ _ Hne). cbv zeta.
    destruct (Hnormal Hne) as (Hcall & Hchain).
    pose proof (Hcall s) as H1.
    destruct (call (EvAppendDSL (Puller.ref (puller s))) _ s)
      as [[[]|err] s1]; simpl in *.
    2: { exists s1. split; [done|right; by split]. }
    pose proof (images_Dispatch_keeps fuel _ [Puller.desc (puller s)] s1
                  Hchain) as H2.
    destruct (images_Dispatch fuel _ [Puller.desc (puller s)] s1)
      as [[[err|]|msg|] s2]; simpl in *.
    all: exists s2; split; [by apply (I_trans _ s1)|].
    2: by left.
    all: right; by split.
Qed.

(** The same for a whole call of [PullManifests], from the state in which
    the map is made. *)
Lemma PullManifests_keeps fuel s :
  let s1 := snd (resolve s) in
  let ref := Puller.ref (puller s1) in
  let pl := Puller.Platform (puller s1) in
  (∀ t, I t (snd (call (EvFetcher ref) (Resolver_Fetcher ref) t))) →
  (ocispec.MediaType (Puller.desc (puller s1))
     ≠ images_MediaTypeDockerSchema1Manifest →
   (∀ t, I t (snd (call (EvAppendDSL ref)
                     (docker_AppendDistributionSourceLabel ref) t))) ∧
   ∀ fetcher,
     handler_keeps I (images_Handlers (normal_handlers fetcher pl ref))) →
  (ocispec.MediaType (Puller.desc (puller s1))
     = images_MediaTypeDockerSchema1Manifest →
   (∀ fetcher,
      handler_keeps I (images_Handlers [ext (H_schema1Converter fetcher)]) ∧
      ∀ t, I t (snd (call (EvConvert fetcher)
                       (schema1_Convert fetcher) t))) ∧
   (∀ d t, I t (with_desc d t)) ∧
   handler_keeps I (images_Handlers (gather_handlers pl))) →
  match fst (resolve s) with
  | Some err => PullManifests fuel s = (Returns (Err err), s1)
  | None =>
      ∃ s2, I (with_new_metadata s1) s2 ∧
        (PullManifests fuel s = collect_and_reconcile pl s2 ∨
         (snd (PullManifests fuel s) = s2 ∧
          stopped (fst (PullManifests fuel s))))
  end.
Proof.
  intros s1 ref pl Hfetch Hnormal Hschema1. subst s1 ref pl.
  rewrite PullManifests_unfold.
  destruct (resolve s) as [[err|] s1]; simpl in *; [done|].
  pose proof (Hfetch (with_new_metadata s1)) as H1.
  assert (Hp : puller (snd (call (EvFetcher (Puller.ref (puller s1)))
                              (Resolver_Fetcher (Puller.ref (puller s1)))
                              (with_new_metadata s1))) = puller s1).
  { unfold call. by destruct (Resolver_Fetcher _ _). }
  destruct (call (EvFetcher (Puller.ref (puller s1))) _ (with_new_metadata s1))
    as [[fetcher|err] s1']; simpl in *.
  2: { exists s1'. split; [done|right; by split]. }
  destruct (walk_and_reconcile_keeps fuel fetcher
              (Puller.Platform (puller s1)) s1') as (s2 & H2 & Hcases).
  - rewrite Hp. intros Hne. destruct (Hnormal Hne) as [Hc Hh]. auto.
  - rewrite Hp. intros Heq. destruct (Hschema1 Heq) as (Hf & Hset & Hg).
    repeat split; try done; apply Hf.
  - exists s2. split; [by apply (I_trans _ s1')|done].
Qed.
End WalkInvariant.

Section WalkInvariantAt.
Context `{Env}.
Variable I : State → State → Prop.
Hypothesis I_refl : ∀ s, I s s.
Hypothesis I_trans : ∀ s1 s2 s3, I s1 s2 → I s2 s3 → I s1 s3.

(** The chain on one descriptor, when every handler keeps the relation on
    that descriptor. *)
Lemma images_Handlers_keeps_at handlers desc :
  Forall (fun h : Handler => ∀ s, I s (snd (h desc s))) handlers →
  ∀ s, I s (snd (images_Handlers handlers desc s)).
Proof.
  induction 1 as [|h rest Hh Hrest IH]; intros s; simpl.
  { apply I_refl. }
  unfold bind. specialize (Hh s).
  destruct (h desc s) as [[ch|e] s1]; simpl in *; [|done].
  specialize (IH s1).
  destruct (images_Handlers rest desc s1) as [[ch'|e] s2]; simpl in *.
  all: by apply (I_trans _ s1).
Qed.
End WalkInvariantAt.

(** ** What the walk keeps of the metadata and of the laziness *)

Section WalkFacts.
Context `{Env}.

(** The relation "a well keyed map stays well keyed". *)
Lemma well_keyed_empty : well_keyed (Some ∅).
Proof. intros m [= <-] k d Hk. by rewrite lookup_empty in Hk. Qed.

Lemma filterLayerBlobs_well_keyed desc s :
  well_keyed (metadata s) →
  well_keyed (metadata (snd (filterLayerBlobs desc s))).
Proof.
  intros Hwk. unfold filterLayerBlobs, bind, get_metadata, set_metadata, ret.
  case_bool_decide as Hlayer; simpl; [done|].
  destruct (metadata s) as [m|] eqn:Hm; simpl; [|by rewrite Hm].
  intros m' [= <-] k d.
  rewrite lookup_insert_Some. intros [[<- <-]|[_ Hk]]; [done|].
  by apply (Hwk m).
Qed.

Lemma call_metadata {A} (ev : A → Event) (o : World → A * World) s :
  metadata (snd (call ev o s)) = metadata s ∧
  puller (snd (call ev o s)) = puller s.
Proof. unfold call. by destruct (o (world s)). Qed.

Lemma chains_well_keyed handlers :
  Forall (fun h => h = filterLayerBlobs ∨ ∃ e, h = ext e) handlers →
  handler_keeps
    (fun t t' => well_keyed (metadata t) → well_keyed (metadata t'))
    (images_Handlers handlers).
Proof.
  intros Hall. apply images_Handlers_keeps; [auto|auto|].
  eapply List.Forall_impl; [|exact Hall].
  intros h [->|[e ->]] desc s Hwk.
  - by apply filterLayerBlobs_well_keyed.
  - unfold ext. by rewrite (proj1 (call_metadata _ _ s)).
Qed.

(** At the loop over the metadata of a pull the map is well keyed. *)
Lemma PullManifests_well_keyed fuel s r s' :
  PullManifests fuel s = (Returns (Ok r), s') → well_keyed (metadata s').
Proof.
  intros Hrun.
  pose proof (PullManifests_keeps
    (fun t t' => well_keyed (metadata t) → well_keyed (metadata t'))
    (fun _ Hwk => Hwk) (fun _ _ _ H12 H23 Hwk => H23 (H12 Hwk)) fuel s)
    as Hkeep.
  cbv zeta in Hkeep.
  assert (Hcall : ∀ A (ev : A → Event) o t,
    well_keyed (metadata t) → well_keyed (metadata (snd (call ev o t)))).
  { intros A ev o t. by rewrite (proj1 (call_metadata ev o t)). }
  specialize (Hkeep (Hcall _ _ _)).
  destruct (PullManifests_success _ _ _ _ Hrun)
    as (_ & _ & _ & _ & _ & _ & _ & _ & Hnone & _).
  rewrite Hnone in Hkeep.
  destruct Hkeep as (s2 & Hwk & Hcases).
  - intros _. split; [apply Hcall|]. intros fetcher.
    apply chains_well_keyed. unfold normal_handlers.
    repeat (apply List.Forall_cons; [by eauto|]). apply List.Forall_nil.
  - intros _. split; [|split].
    + intros fetcher. split; [|apply Hcall].
      apply chains_well_keyed.
      repeat (apply List.Forall_cons; [by eauto|]). apply List.Forall_nil.
    + done.
    + apply chains_well_keyed. unfold gather_handlers.
      repeat (apply List.Forall_cons; [by eauto|]). apply List.Forall_nil.
  - destruct Hcases as [Heq|[_ Hstop]]; [|by rewrite Hrun in Hstop].
    destruct (collect_and_reconcile_frame
                (Puller.Platform (puller (snd (resolve s)))) s2)
      as (_ & _ & _ & _ & _ & _ & Hmd & _).
    rewrite <- Heq, Hrun in Hmd. simpl in Hmd. rewrite Hmd.
    apply Hwk, well_keyed_empty.
Qed.
End WalkFacts.

Section LazyWalk.
Context `{Env}.

Lemma trace_ext_same_start P s1 s2 s' :
  trace s2 = trace s1 → trace_ext P s1 s' → trace_ext P s2 s'.
Proof. intros Heq (evs & Ht & HF). exists evs. by rewrite Heq. Qed.

Lemma filterLayerBlobs_trace desc s :
  trace (snd (filterLayerBlobs desc s)) = trace s.
Proof.
  unfold filterLayerBlobs, bind, get_metadata, set_metadata, ret.
  case_bool_decide; simpl; [done|]. by destruct (metadata s).
Qed.

(** A chain that starts with the filter hands no layer on to the handlers
    of containerd that follow it. *)
Lemma filtered_chain_is_lazy (es : list (ext_handler Fetcher)) :
  handler_keeps (trace_ext is_lazy_event)
    (images_Handlers (filterLayerBlobs :: map ext es)).
Proof.
  intros desc s.
  destruct (decide (ocispec.MediaType desc ∈ layerMediaTypes))
    as [Hlayer|Hother].
  - simpl. unfold bind at 1. unfold filterLayerBlobs.
    rewrite bool_decide_true by done. simpl. apply trace_ext_refl.
  - apply images_Handlers_keeps_at;
      [apply trace_ext_refl|apply trace_ext_trans|].
    apply List.Forall_cons.
    + intros t. apply (trace_ext_same_trace _ _ t);
        [apply filterLayerBlobs_trace|apply trace_ext_refl].
    + apply List.Forall_forall. intros h (e & <- & _)%in_map_iff t.
      unfold ext. apply trace_ext_call. intros r. simpl.
      rewrite bool_decide_false by done. apply orb_true_r.
Qed.

(** X6: in a whole call of [PullManifests], on either path and whatever
    its outcome, the handlers of containerd other than the schema1
    converter are never called on a descriptor of a layer media type: the
    fetch handler, the children handlers and the handler of the
    distribution source label only see non-layer descriptors. *)
Theorem PullManifests_hands_no_layer_on fuel (s : State) :
  ∃ evs,
    trace (snd (PullManifests fuel s)) = trace s ++ evs ∧
    ∀ h d r,
      EvHandle h d r ∈ evs →
      ocispec.MediaType d ∈ layerMediaTypes →
      is_schema1Converter h = true.
Proof.
  assert (Hlazy : trace_ext is_lazy_event s (snd (PullManifests fuel s))).
  { destruct (resolve_post s) as (_ & _ & _ & _ & _ & Hres & _).
    apply (trace_ext_weaken _ is_lazy_event) in Hres; [|by intros []].
    pose proof (PullManifests_keeps (trace_ext is_lazy_event)
                  (trace_ext_refl _) (trace_ext_trans _) fuel s) as Hkeep.
    cbv zeta in Hkeep.
    destruct (fst (resolve s)) as [err|].
    { rewrite Hkeep; try done.
      - intros t. by apply trace_ext_call.
      - intros _. split; [intros t; by apply trace_ext_call|].
        intros fetcher. apply (filtered_chain_is_lazy [_; _; _]).
      - intros _. split; [|split].
        + intros fetcher. split; [|intros t; by apply trace_ext_call].
          apply images_Handlers_keeps;
            [apply trace_ext_refl|apply trace_ext_trans|].
          apply List.Forall_cons; [|apply List.Forall_nil].
          intros d t. unfold ext. by apply trace_ext_call.
        + intros d t. apply (trace_ext_same_trace _ _ t);
            [done|apply trace_ext_refl].
        + apply (filtered_chain_is_lazy [_]). }
    destruct Hkeep as (s2 & H2 & Hcases).
    - intros t. by apply trace_ext_call.
    - intros _. split; [intros t; by apply trace_ext_call|].
      intros fetcher. apply (filtered_chain_is_lazy [_; _; _]).
    - intros _. split; [|split].
      + intros fetcher. split; [|intros t; by apply trace_ext_call].
        apply images_Handlers_keeps;
          [apply trace_ext_refl|apply trace_ext_trans|].
        apply List.Forall_cons; [|apply List.Forall_nil].
        intros d t. unfold ext. by apply trace_ext_call.
      + intros d t. apply (trace_ext_same_trace _ _ t);
          [done|apply trace_ext_refl].
      + apply (filtered_chain_is_lazy [_]).
    - apply (trace_ext_same_start _ _ (snd (resolve s))) in H2; [|done].
      apply (trace_ext_trans _ _ (snd (resolve s))); [done|].
      apply (trace_ext_trans _ _ s2); [done|].
      destruct Hcases as [Heq|[-> _]]; [|apply trace_ext_refl].
      rewrite Heq.
      destruct (collect_and_reconcile_frame
                  (Puller.Platform (puller (snd (resolve s)))) s2)
        as (_ & _ & _ & _ & _ & _ & _ & Hrec).
      revert Hrec. apply trace_ext_weaken. by intros []. }
  destruct Hlazy as (evs & Htr & Hall). exists evs. split; [done|].
  intros h d r Hin Hlayer. rewrite forallb_forall in Hall.
  apply list_elem_of_In, Hall in Hin. simpl in Hin.
  rewrite bool_decide_true in Hin by done. by rewrite orb_false_r in Hin.
Qed.

(** The digests of the values of a well keyed map are its keys. *)
Lemma well_keyed_digests (l : list (digest.Digest * ocispec.Descriptor)) :
  Forall (fun kd => ocispec.Digest (snd kd) = fst kd) l →
  ocispec.Digest <$> l.*2 = l.*1.
Proof.
  induction 1 as [|[k d] l Hkd Hl IH]; [done|].
  rewrite !fmap_cons. f_equal; [exact Hkd|exact IH].
Qed.

(** X7: the descriptors that a call of [PullManifests] adds to the
    non-layer descriptors are the entries of a map keyed by digest that
    the filter has filled: they have pairwise different digests and none
    of them is of a layer media type. *)
Theorem PullManifests_nonlayers_well_keyed fuel (s s' : State) r :
  PullManifests fuel s = (Returns (Ok r), s') →
  ∃ descs,
    PulledManifests.Nonlayers r = Puller.nonlayers (puller s) ++ descs ∧
    NoDup (ocispec.Digest <$> descs) ∧
    Forall (fun d => ocispec.MediaType d ∉ layerMediaTypes) descs.
Proof.
  intros Hrun. pose proof (PullManifests_well_keyed _ _ _ _ Hrun) as Hwk.
  apply PullManifests_success in Hrun.
  destruct Hrun as (s2 & md & m & ds & w1 & w2 & fetcher & evsW & _ & Hw &
                    _ & _ & Hmd & _ & _ & _ & -> & ->).
  simpl in *. specialize (Hwk md eq_refl).
  exists ((range_order md (world s2)).*2).
  destruct (resolve_keeps s) as (_ & _ & Kn).
  destruct Hw as (_ & _ & _ & _ & _ & _ & _ & Wn & _).
  destruct (collect_fold ((range_order md (world s2)).*2) (puller s2))
    as (_ & _ & _ & _ & _ & _ & _ & Fn & _).
  rewrite Fn, Wn, Kn. split; [done|].
  assert (Hkeys : Forall (fun kd => ocispec.Digest (snd kd) = fst kd
                                    ∧ ocispec.MediaType (snd kd)
                                        ∉ layerMediaTypes)
                    (range_order md (world s2))).
  { apply List.Forall_forall. intros [k d] Hin. simpl.
    apply list_elem_of_In in Hin. rewrite range_order_perm in Hin.
    apply elem_of_map_to_list in Hin. by apply Hwk. }
  split.
  - rewrite well_keyed_digests.
    + rewrite range_order_perm. apply NoDup_fst_map_to_list.
    + eapply List.Forall_impl; [|exact Hkeys]. by intros ? [? _].
  - apply Forall_fmap. eapply List.Forall_impl; [|exact Hkeys].
    by intros ? [_ ?].
Qed.
End LazyWalk.

(** ** More on the resolver *)

Section MoreResolution.
Context `{Env}.

(** X2: a local attempt that fails has not touched the root descriptor:
    the puller is as it was, or only its ref has been set to the
    reference as a string (the store knew the digest, and a later read
    failed). *)
Theorem tryLocalResolve_failure_keeps_desc (s s1 : State) (err : error) :
  tryLocalResolve s = (Some err, s1) →
  puller s1 = puller s ∨
  puller s1
  = Puller.set_ref (reference.String (Puller.Src (puller s))) (puller s).
Proof.
  unfold tryLocalResolve, bind, get_p, ret, call, modify_p.
  case_bool_decide; simpl.
  { intros [= _ <-]. by left. }
  destruct (ContentStore_Info _ _) as [[size|e] w1]; simpl.
  2: { intros [= _ <-]. by left. }
  destruct (ContentStore_ReaderAt _ _) as [[ra|e] w2]; simpl.
  2: { intros [= _ <-]. by right. }
  destruct (imageutil_DetectManifestMediaType _ _) as [[mt|e] w3]; simpl.
  - done.
  - intros [= _ <-]. by right.
Qed.

(** On a puller whose resolution has failed, [PullManifests] and
    [ReaderAt] return the stored error at once. *)
Lemma failed_PullManifests fuel s err :
  Puller.resolveOnce (puller s) = true →
  Puller.resolveErr (puller s) = Some err →
  PullManifests fuel s = (Returns (Err err), s).
Proof.
  intros Hdone Herr. rewrite PullManifests_unfold, (resolve_done s Hdone).
  by rewrite Herr.
Qed.

Lemma failed_ReaderAt desc s err :
  Puller.resolveOnce (puller s) = true →
  Puller.resolveErr (puller s) = Some err →
  ReaderAt desc s = (Err err, s).
Proof.
  intros Hdone Herr. unfold ReaderAt, bind. rewrite (resolve_done s Hdone).
  by rewrite Herr.
Qed.

(** X3: a failed resolution is final for the whole puller.  Whatever is
    called on it afterwards, and whatever changes elsewhere, the puller
    stays as it is and no collaborator is called any more: every
    [PullManifests] and every [ReaderAt] returns the stored error without
    asking for a fetcher, walking or reading the store. *)
Theorem failed_resolution_is_final (s : State) (err : error) (ops : list op) :
  Puller.resolveOnce (puller s) = true →
  Puller.resolveErr (puller s) = Some err →
  let s' := run_ops ops s in
  puller s' = puller s ∧
  trace s' = trace s ∧
  metadata s' = metadata s ∧
  (∀ fuel, PullManifests fuel s' = (Returns (Err err), s')) ∧
  (∀ desc, ReaderAt desc s' = (Err err, s')).
Proof.
  revert s. induction ops as [|o ops IH]; intros s Hdone Herr; simpl.
  { repeat split; auto using failed_PullManifests, failed_ReaderAt. }
  assert (Hop : puller (run_op o s) = puller s ∧
                trace (run_op o s) = trace s ∧
                metadata (run_op o s) = metadata s).
  { destruct o as [|fuel|desc|change]; simpl.
    - by rewrite (resolve_done s Hdone).
    - by rewrite (failed_PullManifests fuel s err).
    - by rewrite (failed_ReaderAt desc s err).
    - done. }
  destruct Hop as (Hp & Ht & Hm).
  destruct (IH (run_op o s)) as (I1 & I2 & I3 & I4 & I5);
    [by rewrite Hp|by rewrite Hp|].
  fold (run_ops ops (run_op o s)).
  rewrite I1, I2, I3, Hp, Ht, Hm. done.
Qed.

(** After [ReaderAt] the puller is the puller after the resolution. *)
Lemma ReaderAt_puller desc s :
  puller (snd (ReaderAt desc s)) = puller (snd (resolve s)) ∧
  metadata (snd (ReaderAt desc s)) = metadata (snd (resolve s)).
Proof.
  unfold ReaderAt, bind. destruct (resolve s) as [[err|] s1]; simpl; [done|].
  unfold get_p, call, ret.
  destruct (Resolver_Fetcher _ _) as [[fetcher|err] w1]; simpl; [|done].
  by destruct (contentutil_FromFetcher_ReaderAt _ _ _).
Qed.

(** X11: reading through the provider never changes what a pull has left in
    the puller: the config descriptor, the layers and the non-layer
    descriptors are those from before the call, on a resolved puller and
    on one that [ReaderAt] has to resolve first, and the map of the last
    walk is not touched either. *)
Theorem ReaderAt_keeps_results (desc : ocispec.Descriptor) (s : State) :
  let s' := snd (ReaderAt desc s) in
  Puller.configDesc (puller s') = Puller.configDesc (puller s) ∧
  Puller.layers (puller s') = Puller.layers (puller s) ∧
  Puller.nonlayers (puller s') = Puller.nonlayers (puller s) ∧
  metadata s' = metadata s.
Proof.
  destruct (ReaderAt_puller desc s) as [Hp Hm].
  destruct (resolve_keeps s) as (K1 & K2 & K3).
  destruct (resolve_post s) as (_ & _ & _ & _ & Kmd & _).
  simpl. rewrite Hp, Hm. done.
Qed.

(** X4: no call ever changes the configuration of a puller: after any
    sequence of calls of [resolve], [PullManifests] and [ReaderAt], with
    whatever outcome, the source reference and the platform are those the
    puller was made with. *)
Theorem configuration_is_kept (ops : list op) (s : State) :
  Puller.Src (puller (run_ops ops s)) = Puller.Src (puller s) ∧
  Puller.Platform (puller (run_ops ops s)) = Puller.Platform (puller s).
Proof.
  revert s. induction ops as [|o ops IH]; intros s; simpl; [done|].
  fold (run_ops ops (run_op o s)).
  destruct (IH (run_op o s)) as [-> ->].
  destruct (resolve_post s) as (_ & _ & Rs & Rp & _).
  destruct o as [|fuel|desc|change]; simpl.
  - done.
  - destruct (PullManifests_cases fuel s) as (s2 & Hw & Hcases).
    destruct Hw as (Ws & Wp & _).
    destruct Hcases as [(_ & _ & ->)|[-> _]].
    + destruct (collect_and_reconcile_frame
                  (Puller.Platform (puller (snd (resolve s)))) s2)
        as (_ & _ & _ & Cs & Cp & _).
      rewrite Cs, Cp, Ws, Wp. done.
    + rewrite Ws, Wp. done.
  - by rewrite (proj1 (ReaderAt_puller desc s)).
  - done.
Qed.
End MoreResolution.

(** ** More on the reconciler *)

Section MoreReconciliation.
Context `{Env}.

(** X13: [getLayers] always returns: the index accesses of its loop are in
    range, since the loop is only reached with as many diff IDs as layers.
    It changes neither the puller nor the map. *)
Theorem getLayers_always_returns (desc : ocispec.Descriptor)
    (platform : ocispec.Platform) (s : State) :
  ∃ r, fst (getLayers desc platform s) = Returns r ∧
       puller (snd (getLayers desc platform s)) = puller s ∧
       metadata (snd (getLayers desc platform s)) = metadata s.
Proof.
  rewrite getLayers_unfold.
  destruct (images_Manifest desc platform (world s)) as [[m|err] w1].
  2: { by eexists. }
  destruct (images_RootFS desc platform w1) as [[ds|err] w2]; simpl.
  2: { by eexists. }
  destruct (decide (length ds = length (ocispec.Layers m))) as [Hlen|Hlen].
  - rewrite (annotateLayers_ok _ _ Hlen). by eexists.
  - rewrite (annotateLayers_mismatch _ _ Hlen). by eexists.
Qed.

(** X14: an error of [getLayers] is the mismatch of the two lengths, after
    both reads have succeeded, or it wraps the error of the read that
    failed, which is still its cause; when the manifest cannot be read the
    diff IDs are not asked for. *)
Theorem getLayers_error_cause (desc : ocispec.Descriptor)
    (platform : ocispec.Platform) (s s' : State) (e : error) :
  getLayers desc platform s = (Returns (Err e), s') →
  (∃ m ds,
     e = errors_Errorf "mismatched image rootfs and manifest layers %+v %+v"
           [ArgDigests ds; ArgDescriptors (ocispec.Layers m)] ∧
     length ds ≠ length (ocispec.Layers m) ∧
     trace s' = trace s ++ [EvManifest desc platform (Ok m);
                            EvRootFS desc platform (Ok ds)]) ∨
  (∃ err,
     errors_Cause e = errors_Cause err ∧
     (trace s' = trace s ++ [EvManifest desc platform (Err err)] ∨
      ∃ m, trace s' = trace s ++ [EvManifest desc platform (Ok m);
                                  EvRootFS desc platform (Err err)])).
Proof.
  rewrite getLayers_unfold.
  destruct (images_Manifest desc platform (world s)) as [[m|err] w1].
  2: { intros [= <- <-]. right. exists err. split; [done|]. by left. }
  destruct (images_RootFS desc platform w1) as [[ds|err] w2]; simpl.
  2: { intros [= <- <-]. right. exists err. split; [done|]. right.
       exists m. simpl. by rewrite <- app_assoc. }
  destruct (decide (length ds = length (ocispec.Layers m))) as [Hlen|Hlen].
  - by rewrite (annotateLayers_ok _ _ Hlen).
  - rewrite (annotateLayers_mismatch _ _ Hlen). intros [= <- <-].
    left. exists m, ds. simpl. by rewrite <- app_assoc.
Qed.
End MoreReconciliation.

(** ** More on the orchestrator *)

Section MoreOrchestration.
Context `{Env}.

(** X8: which entry becomes the config descriptor does not depend on the
    order in which the map is visited when one entry only is of a config
    media type: on a puller without earlier non-layer descriptors, a
    returned non-layer descriptor of a config media type that is the only
    such one is the config descriptor returned. *)
Theorem PullManifests_config_is_the_only_config fuel (s s' : State) r c :
  PullManifests fuel s = (Returns (Ok r), s') →
  Puller.nonlayers (puller s) = [] →
  c ∈ PulledManifests.Nonlayers r →
  ocispec.MediaType c ∈ configMediaTypes →
  (∀ d, d ∈ PulledManifests.Nonlayers r →
        ocispec.MediaType d ∈ configMediaTypes → d = c) →
  PulledManifests.ConfigDesc r = c.
Proof.
  intros Hrun Hfresh Hin Hcfg Honly. apply PullManifests_success in Hrun.
  destruct Hrun as (s2 & md & m & ds & w1 & w2 & fetcher & evsW & _ & Hw &
                    _ & _ & Hmd & _ & _ & _ & -> & ->).
  simpl in *.
  destruct (resolve_keeps s) as (_ & _ & Kn).
  destruct Hw as (_ & _ & _ & _ & _ & _ & _ & Wn & _).
  destruct (collect_fold ((range_order md (world s2)).*2) (puller s2))
    as (_ & _ & _ & _ & _ & _ & _ & Fn & Fc).
  rewrite Fn, Wn, Kn, Hfresh in Hin, Honly. simpl in Hin, Honly.
  destruct Fc as [[_ Hall]|[Hc Hmt]].
  - rewrite List.Forall_forall in Hall.
    apply list_elem_of_In, Hall in Hin. done.
  - by apply Honly.
Qed.

(** X10: after a pull that returned a result the puller is resolved without
    an error and holds exactly what was returned: the ref, the root
    descriptor, the config descriptor, the non-layer descriptors and the
    layers; its platform is unchanged. *)
Theorem PullManifests_result_is_kept fuel (s s' : State) r :
  PullManifests fuel s = (Returns (Ok r), s') →
  Puller.resolveOnce (puller s') = true ∧
  Puller.resolveErr (puller s') = None ∧
  PulledManifests.mk (Puller.ref (puller s')) (Puller.desc (puller s'))
    (Puller.configDesc (puller s')) (Puller.nonlayers (puller s'))
    (solver.mkRemote (Puller.layers (puller s'))) = r ∧
  Puller.Platform (puller s') = Puller.Platform (puller s).
Proof.
  intros Hrun.
  destruct (PullManifests_leaves_resolved _ _ _ _ Hrun)
    as (H1 & H2 & H3 & H4 & H5 & H6 & H7 & H8).
  rewrite H3, H4, H5, H6, H7. repeat split; try done.
  by destruct r as [? ? ? ? []].
Qed.

(** X12: the provider handed out with a result works on the ref of that
    result.  After a pull that returned a result, [ReaderAt] neither
    resolves again nor reads the store: it leaves the puller alone, asks
    the resolver for a fetcher for the returned ref, and returns what the
    reader over that fetcher returns. *)
Theorem ReaderAt_after_pull fuel (s s' : State) r
    (desc : ocispec.Descriptor) :
  PullManifests fuel s = (Returns (Ok r), s') →
  let ref := PulledManifests.Ref r in
  let out := fst (ReaderAt desc s') in
  let t := snd (ReaderAt desc s') in
  puller t = puller s' ∧
  match fst (Resolver_Fetcher ref (world s')) with
  | Err err => out = Err err ∧ trace t = trace s' ++ [EvFetcher ref (Err err)]
  | Ok fetcher =>
      (out, world t) =
        contentutil_FromFetcher_ReaderAt fetcher desc
          (snd (Resolver_Fetcher ref (world s'))) ∧
      trace t = trace s' ++ [EvFetcher ref (Ok fetcher);
                             EvFromFetcherReaderAt fetcher desc out]
  end.
Proof.
  intros Hrun.
  destruct (PullManifests_leaves_resolved _ _ _ _ Hrun)
    as (Hdone & Herr & Href & _).
  cbv zeta. rewrite <- Href. unfold ReaderAt, bind.
  rewrite (resolve_done s' Hdone), Herr. unfold get_p, call, ret.
  destruct (Resolver_Fetcher _ _) as [[fetcher|err] w1]; simpl; [|done].
  destruct (contentutil_FromFetcher_ReaderAt _ _ _) as [out w2]; simpl.
  by rewrite <- app_assoc.
Qed.

(** X9: a call of [PullManifests] that gives up before the reconciliation
    (the resolution, the request for a fetcher, the label handler, a walk
    or the conversion failed) leaves the config descriptor, the layers and
    the non-layer descriptors of the puller as they were; otherwise the
    manifest of the root descriptor has been read. *)
Theorem PullManifests_early_failure fuel (s : State) :
  let out := fst (PullManifests fuel s) in
  let s' := snd (PullManifests fuel s) in
  (stopped out ∧
   Puller.configDesc (puller s') = Puller.configDesc (puller s) ∧
   Puller.layers (puller s') = Puller.layers (puller s) ∧
   Puller.nonlayers (puller s') = Puller.nonlayers (puller s)) ∨
  (∃ evs rm,
     trace s' = trace s ++ evs ∧
     EvManifest (Puller.desc (puller s')) (Puller.Platform (puller s)) rm
       ∈ evs).
Proof.
  cbv zeta.
  destruct (resolve_keeps s) as (K1 & K2 & K3).
  destruct (resolve_post s) as (_ & _ & _ & Kpl & _ & (evsA & HtA & _) & _).
  destruct (PullManifests_cases fuel s) as (s2 & Hw & Hcases).
  destruct Hw as (_ & _ & _ & _ & _ & W1 & W2 & W3 & _ & _ & evsB & HtB & _).
  destruct Hcases as [(_ & _ & Heq)|[-> Hstop]].
  2: { left. rewrite W1, W2, W3. done. }
  right. rewrite Heq, <- Kpl.
  destruct (collect_and_reconcile_frame
              (Puller.Platform (puller (snd (resolve s)))) s2)
    as (_ & _ & _ & _ & _ & Cd & _).
  rewrite Cd.
  destruct (collect_and_reconcile_run
              (Puller.Platform (puller (snd (resolve s)))) s2)
    as (rm & w1 & _ & Hrun).
  destruct rm as [m|err].
  2: { rewrite Hrun. simpl. eexists _, _. rewrite HtB, HtA, <- !app_assoc.
       split; [done|]. rewrite !elem_of_app. right. right.
       apply list_elem_of_here. }
  destruct Hrun as (rd & w2 & _ & Hrun).
  assert (Htr : trace (snd (collect_and_reconcile
                  (Puller.Platform (puller (snd (resolve s)))) s2))
                = trace s2 ++
                  [EvManifest (Puller.desc (puller s2))
                     (Puller.Platform (puller (snd (resolve s)))) (Ok m);
                   EvRootFS (Puller.desc (puller s2))
                     (Puller.Platform (puller (snd (resolve s)))) rd]).
  { destruct rd as [ds|err]; [destruct (decide _)|]; by rewrite Hrun. }
  rewrite Htr. eexists _, _. rewrite HtB, HtA, <- !app_assoc.
  split; [done|]. rewrite !elem_of_app. right. right.
  apply list_elem_of_here.
Qed.
End MoreOrchestration.

(** ** The two paths *)

Section Paths.
Context `{Env}.

Lemma path_chain_trace (P : Event → bool) (es : list (ext_handler Fetcher)) :
  (∀ e d r, e ∈ es → P (EvHandle e d r) = true) →
  handler_keeps (trace_ext P)
    (images_Handlers (filterLayerBlobs :: map ext es)).
Proof.
  intros HP. apply images_Handlers_keeps;
    [apply trace_ext_refl|apply trace_ext_trans|].
  apply List.Forall_cons.
  - intros d t. apply (trace_ext_same_trace _ _ t);
      [apply filterLayerBlobs_trace|apply trace_ext_refl].
  - apply List.Forall_forall. intros h (e & <- & Hin)%in_map_iff d t.
    unfold ext. apply trace_ext_call. intros r. apply HP.
    by apply list_elem_of_In.
Qed.

(** X5: the two paths of [PullManifests] do not mix.  Between the
    resolution and the reconciliation, a pull of a root descriptor that is
    not a schema1 manifest only asks for a fetcher and for the label
    handler and calls the fetch handler, the limited children handler and
    the label handler, and it leaves the root descriptor as resolved: the
    converter is not used.  A pull of a schema1 manifest only asks for a
    fetcher and calls the converter, its conversion and the filtered
    children handler: nothing is fetched by the fetch handler and no
    label is set. *)
Theorem PullManifests_paths fuel (s : State) :
  let s1 := snd (resolve s) in
  let s' := snd (PullManifests fuel s) in
  ∃ evsW evsR,
    trace s' = trace s1 ++ evsW ++ evsR ∧
    forallb is_reconcile_event evsR = true ∧
    if bool_decide (ocispec.MediaType (Puller.desc (puller s1))
                    = images_MediaTypeDockerSchema1Manifest)
    then forallb on_schema1_path evsW = true
    else forallb on_normal_path evsW = true ∧
         Puller.desc (puller s') = Puller.desc (puller s1).
Proof.
  cbv zeta.
  set (schema1 := ocispec.MediaType (Puller.desc (puller (snd (resolve s))))
                  = images_MediaTypeDockerSchema1Manifest).
  set (P := if bool_decide schema1 then on_schema1_path else on_normal_path).
  set (I := fun t t' : State =>
              trace_ext P t t' ∧ (¬ schema1 → puller t' = puller t)).
  assert (I_refl : ∀ t, I t t).
  { intros t. split; [apply trace_ext_refl|done]. }
  assert (I_trans : ∀ t1 t2 t3, I t1 t2 → I t2 t3 → I t1 t3).
  { intros t1 t2 t3 [A1 A2] [B1 B2]. split.
    - by apply (trace_ext_trans _ _ t2).
    - intros Hn. rewrite B2, A2; done. }
  assert (I_call : ∀ A (ev : A → Event) o t,
            (∀ a, P (ev a) = true) → I t (snd (call ev o t))).
  { intros A ev o t Hev. split; [by apply trace_ext_call|].
    intros _. apply call_metadata. }
  assert (Hend : ∀ s2,
    trace_ext P (snd (resolve s)) s2 →
    (¬ schema1 → Puller.desc (puller s2)
                 = Puller.desc (puller (snd (resolve s)))) →
    ∀ t, trace_ext is_reconcile_event s2 t →
         Puller.desc (puller t) = Puller.desc (puller s2) →
    ∃ evsW evsR,
      trace t = trace (snd (resolve s)) ++ evsW ++ evsR ∧
      forallb is_reconcile_event evsR = true ∧
      if bool_decide schema1
      then forallb on_schema1_path evsW = true
      else forallb on_normal_path evsW = true ∧
           Puller.desc (puller t) = Puller.desc (puller (snd (resolve s)))).
  { intros s2 (evsW & HtW & HW) Hd t (evsR & HtR & HR) Hdt.
    exists evsW, evsR. rewrite HtR, HtW, <- app_assoc.
    split; [done|]. split; [done|]. unfold P in HW.
    case_bool_decide as Hs; [done|]. split; [done|]. rewrite Hdt. auto. }
  pose proof (PullManifests_keeps I I_refl I_trans fuel s) as Hkeep.
  cbv zeta in Hkeep.
  assert (Hfetch : ∀ t,
    I t (snd (call (EvFetcher (Puller.ref (puller (snd (resolve s)))))
                (Resolver_Fetcher (Puller.ref (puller (snd (resolve s)))))
                t))).
  { intros t. apply I_call. intros a. unfold P. by case_bool_decide. }
  assert (Hnormal :
    ocispec.MediaType (Puller.desc (puller (snd (resolve s))))
      ≠ images_MediaTypeDockerSchema1Manifest →
    (∀ t, I t (snd (call
                 (EvAppendDSL (Puller.ref (puller (snd (resolve s)))))
                 (docker_AppendDistributionSourceLabel
                    (Puller.ref (puller (snd (resolve s))))) t))) ∧
    ∀ fetcher,
      handler_keeps I
        (images_Handlers
           (normal_handlers fetcher
              (Puller.Platform (puller (snd (resolve s))))
              (Puller.ref (puller (snd (resolve s))))))).
  { intros Hne.
    assert (HP : P = on_normal_path).
    { unfold P. by rewrite bool_decide_false. }
    split.
    - intros t. apply I_call. intros a. by rewrite HP.
    - intros fetcher d t. split.
      + rewrite HP. apply (path_chain_trace on_normal_path [_; _; _]).
        intros e d' r. rewrite !elem_of_cons.
        intros [->|[->|[->|Hnil]]]; try done. by apply elem_of_nil in Hnil.
      + intros _. apply normal_handlers_frame. }
  assert (Hschema1 :
    ocispec.MediaType (Puller.desc (puller (snd (resolve s))))
      = images_MediaTypeDockerSchema1Manifest →
    (∀ fetcher,
       handler_keeps I (images_Handlers [ext (H_schema1Converter fetcher)]) ∧
       ∀ t, I t (snd (call (EvConvert fetcher)
                        (schema1_Convert fetcher) t))) ∧
    (∀ d t, I t (with_desc d t)) ∧
    handler_keeps I
      (images_Handlers
         (gather_handlers (Puller.Platform (puller (snd (resolve s))))))).
  { intros Heq.
    assert (HP : P = on_schema1_path).
    { unfold P. by rewrite bool_decide_true. }
    split; [|split].
    - intros fetcher. split.
      + intros d t. split; [|done]. rewrite HP.
        apply images_Handlers_keeps;
          [apply trace_ext_refl|apply trace_ext_trans|].
        apply List.Forall_cons; [|apply List.Forall_nil].
        intros d' t'. unfold ext. by apply trace_ext_call.
      + intros t. apply I_call. intros a. by rewrite HP.
    - intros d t. split; [|done].
      apply (trace_ext_same_trace _ _ t); [done|apply trace_ext_refl].
    - intros d t. split; [|done]. rewrite HP.
      apply (path_chain_trace on_schema1_path [_]).
      intros e d' r. rewrite !elem_of_cons.
      intros [->|Hnil]; try done. by apply elem_of_nil in Hnil. }
  specialize (Hkeep Hfetch Hnormal Hschema1).
  destruct (fst (resolve s)) as [err|].
  { rewrite Hkeep. simpl.
    apply (Hend (snd (resolve s))); auto using trace_ext_refl. }
  destruct Hkeep as (s2 & [H2 Hp2] & Hcases).
  apply (trace_ext_same_start _ _ (snd (resolve s))) in H2; [|done].
  assert (Hd2 : ¬ schema1 → Puller.desc (puller s2)
                            = Puller.desc (puller (snd (resolve s)))).
  { intros Hn. by rewrite Hp2. }
  destruct Hcases as [Heq|[-> _]].
  - rewrite Heq.
    destruct (collect_and_reconcile_frame
                (Puller.Platform (puller (snd (resolve s)))) s2)
      as (_ & _ & _ & _ & _ & Cd & _ & Crec).
    by apply (Hend s2).
  - apply (Hend s2); auto using trace_ext_refl.
Qed.
End Paths.

(** ** More runs on the small registry *)

Module more_on_the_registry.
Import demo demo_runs.

(** A reference to the config blob by its digest: the store can hold the
    blob, but it is no manifest. *)
Example config_is_no_manifest :
  fst (@tryLocalResolve up
         (start up (reference.mkSpec "busybox@sha256:config" "sha256:config")
            {[ "sha256:config" ]}))
  = Some (external_error "not a manifest").
Proof. reflexivity. Qed.

Lemma tryLocalResolve_failure_keeps_desc_witness :
  let s := start up (reference.mkSpec "busybox@sha256:config" "sha256:config")
             {[ "sha256:config" ]} in
  puller (snd (@tryLocalResolve up s)) = puller s ∨
  puller (snd (@tryLocalResolve up s))
  = Puller.set_ref "busybox@sha256:config" (puller s).
Proof.
  intros s.
  apply (@tryLocalResolve_failure_keeps_desc up s
           (snd (@tryLocalResolve up s))
           (external_error "not a manifest")).
  apply (on_the_registry.pair_of_fst (@tryLocalResolve up s)). reflexivity.
Defined.

Lemma failed_resolution_is_final_witness :
  let s := snd (@resolve down (start down by_digest cold)) in
  let ops := [CallPullManifests 10; CallReaderAt layer1; CallResolve] in
  puller (@run_ops down ops s) = puller s ∧
  trace (@run_ops down ops s) = trace s.
Proof.
  intros s ops.
  destruct (@failed_resolution_is_final down s
              (external_error "registry unreachable") ops)
    as (Hp & Ht & _); [reflexivity|reflexivity|].
  split; assumption.
Defined.

Lemma getLayers_error_cause_witness :
  (∃ m ds,
     mismatch
     = errors_Errorf "mismatched image rootfs and manifest layers %+v %+v"
         [ArgDigests ds; ArgDescriptors (ocispec.Layers m)]) ∨
  (∃ err, errors_Cause mismatch = errors_Cause err).
Proof.
  destruct (@getLayers_error_cause broken manifestDesc linux
              (start broken by_tag cold)
              (snd (@getLayers broken manifestDesc linux
                      (start broken by_tag cold)))
              mismatch)
    as [(m & ds & He & _)|(err & Hc & _)].
  - apply (on_the_registry.pair_of_fst
             (@getLayers broken manifestDesc linux
                (start broken by_tag cold))).
    reflexivity.
  - left. exists m, ds. exact He.
  - right. exists err. exact Hc.
Defined.

Lemma PullManifests_nonlayers_well_keyed_witness :
  ∃ descs,
    PulledManifests.Nonlayers pulled = Puller.nonlayers (puller s0) ++ descs ∧
    NoDup (ocispec.Digest <$> descs) ∧
    Forall (fun d => ocispec.MediaType d ∉ @layerMediaTypes up) descs.
Proof.
  apply (@PullManifests_nonlayers_well_keyed up 10 s0 s1 pulled).
  apply (on_the_registry.pair_of_fst (@PullManifests up 10 s0)). reflexivity.
Defined.

Lemma PullManifests_config_is_the_only_config_witness :
  PulledManifests.ConfigDesc pulled = configDesc.
Proof.
  apply (@PullManifests_config_is_the_only_config up 10 s0 s1 pulled).
  - apply (on_the_registry.pair_of_fst (@PullManifests up 10 s0)).
    reflexivity.
  - reflexivity.
  - apply list_elem_of_here.
  - apply (bool_decide_eq_true_1
             (ocispec.MediaType configDesc ∈ @configMediaTypes up)).
    reflexivity.
  - intros d Hin Hcfg. simpl in Hin. rewrite !elem_of_cons in Hin.
    destruct Hin as [->|[->|Hnil]].
    + reflexivity.
    + exfalso. revert Hcfg.
      apply (bool_decide_eq_false_1
               (ocispec.MediaType manifestDesc ∈ @configMediaTypes up)).
      reflexivity.
    + by apply elem_of_nil in Hnil.
Defined.

Lemma PullManifests_result_is_kept_witness :
  Puller.resolveOnce (puller s1) = true ∧
  Puller.resolveErr (puller s1) = None.
Proof.
  destruct (@PullManifests_result_is_kept up 10 s0 s1 pulled)
    as (H1 & H2 & _).
  - apply (on_the_registry.pair_of_fst (@PullManifests up 10 s0)).
    reflexivity.
  - split; assumption.
Defined.

Lemma ReaderAt_after_pull_witness :
  puller (snd (@ReaderAt up layer1 s1)) = puller s1.
Proof.
  destruct (@ReaderAt_after_pull up 10 s0 s1 pulled layer1) as [Hp _].
  - apply (on_the_registry.pair_of_fst (@PullManifests up 10 s0)).
    reflexivity.
  - exact Hp.
Defined.
End more_on_the_registry.
